(** * CodeAssist backend: data-access layer, HTTP handlers and streaming relay

    A shallow embedding of [src/backend/database.py] and [src/backend/main.py].

    - The relational store is a record of four tables, each a list of rows in
      insertion order.  The constraints declared in [CREATE_TABLES_SQL]
      (primary keys, UNIQUE, REFERENCES ... ON DELETE CASCADE, CHECK) are
      enforced by the statements below, which raise the error asyncpg raises.
    - The handlers are computations in a state-and-exception monad over a
      [world]: the store, the file tree under the working directory, and the
      two sources the code reads but does not control ([uuid.uuid4] and the
      clock).
    - Timestamps are integers (microseconds), text is [string], file payloads
      are lists of bytes. *)

From Stdlib Require Import ZArith String Ascii List.
From Stdlib Require Import Strings.Byte.
From stdpp Require Import base decidable option list sorting strings pretty gmap fin_maps.

Local Open Scope Z_scope.

(** ** Exceptions *)

Inductive exn :=
| HTTPException (status_code : Z) (detail : string)
| UniqueViolationError (constraint_name : string)
| ForeignKeyViolationError (table_name constraint_name : string)
| CheckViolationError (table_name constraint_name : string)
| FileNotFoundError (filename : string)
| FileExistsError (filename : string)
| IsADirectoryError (filename : string)
| NotADirectoryError (filename : string)
| PermissionError (filename : string)
| AgentException (msg : string).

Definition dquote : string := String (ascii_of_nat 34) EmptyString.
Definition quoted (s : string) : string := dquote +:+ s +:+ dquote.

(** [str(e)], as used by the [except Exception as e] clause of [generate]. *)
Definition str_exn (e : exn) : string :=
  match e with
  | HTTPException status_code detail => pretty status_code +:+ ": " +:+ detail
  | UniqueViolationError c =>
      "duplicate key value violates unique constraint " +:+ quoted c
  | ForeignKeyViolationError t c =>
      "insert or update on table " +:+ quoted t
      +:+ " violates foreign key constraint " +:+ quoted c
  | CheckViolationError t c =>
      "new row for relation " +:+ quoted t
      +:+ " violates check constraint " +:+ quoted c
  | FileNotFoundError f => "[Errno 2] No such file or directory: '" +:+ f +:+ "'"
  | FileExistsError f => "[Errno 17] File exists: '" +:+ f +:+ "'"
  | IsADirectoryError f => "[Errno 21] Is a directory: '" +:+ f +:+ "'"
  | NotADirectoryError f => "[Errno 20] Not a directory: '" +:+ f +:+ "'"
  | PermissionError f => "[Errno 13] Permission denied: '" +:+ f +:+ "'"
  | AgentException msg => msg
  end.

(** ** Schema ([CREATE_TABLES_SQL]) *)

Record user := mk_user {
  u_id : string;
  u_username : string;
  u_api_key : string;
  u_created_at : Z
}.

Record session := mk_session {
  s_id : string;
  s_user_id : string;
  s_name : string;
  s_created_at : Z;
  s_updated_at : Z
}.

Record message := mk_message {
  m_id : string;
  m_session_id : string;
  m_role : string;
  m_content : string;
  m_created_at : Z
}.

Record session_file := mk_session_file {
  f_id : string;
  f_session_id : string;
  f_filename : string;
  f_path : string;
  f_uploaded_at : Z
}.

Record store := mk_store {
  users : list user;
  sessions : list session;
  messages : list message;
  session_files : list session_file
}.

Definition empty_store : store := mk_store [] [] [] [].

#[global] Instance user_eq_dec : EqDecision user.
Proof. solve_decision. Defined.
#[global] Instance session_eq_dec : EqDecision session.
Proof. solve_decision. Defined.
#[global] Instance message_eq_dec : EqDecision message.
Proof. solve_decision. Defined.
#[global] Instance session_file_eq_dec : EqDecision session_file.
Proof. solve_decision. Defined.

(** ** The file tree

    A node is found under its list of path components.  Relative paths are
    components below the working directory (the empty list); an absolute path
    starts with its root as first component, as [PurePath.parts] does.  The
    working directory and the roots always exist.  Symbolic links are not
    modelled. *)

Inductive node :=
| RegularFile (data : list byte) (readable : bool)
| Directory.

Abbreviation tree := (gmap (list string) node).

(** ** The world a handler runs in *)

Record world := mk_world {
  w_db : store;
  w_fs : tree;
  w_uuid4 : nat -> string;   (* the strings [str(uuid.uuid4())] will return, in order *)
  w_clock : nat -> Z         (* the instants the clock will report, in order *)
}.

(** A computation may change the world and then either return or raise. *)
Definition M (A : Type) : Type := world -> (exn + A) * world.

Definition ret {A} (a : A) : M A := fun w => (inr a, w).
Definition raise {A} (e : exn) : M A := fun w => (inl e, w).
Definition bind {A B} (m : M A) (k : A -> M B) : M B :=
  fun w => match m w with
           | (inl e, w') => (inl e, w')
           | (inr a, w') => k a w'
           end.

#[global] Instance M_ret : MRet M := @ret.
#[global] Instance M_bind : MBind M := fun A B k m => bind m k.

(** [uuid.uuid4()] and the clock: each call consumes one reading. *)
Definition uuid4_str : M string :=
  fun w => (inr (w_uuid4 w 0%nat),
            mk_world (w_db w) (w_fs w) (fun n => w_uuid4 w (S n)) (w_clock w)).

Definition clock_now : M Z :=
  fun w => (inr (w_clock w 0%nat),
            mk_world (w_db w) (w_fs w) (w_uuid4 w) (fun n => w_clock w (S n))).

Definition get_db : M store := fun w => (inr (w_db w), w).
Definition get_fs : M tree := fun w => (inr (w_fs w), w).
Definition put_db (d : store) : M unit :=
  fun w => (inr tt, mk_world d (w_fs w) (w_uuid4 w) (w_clock w)).
Definition put_fs (t : tree) : M unit :=
  fun w => (inr tt, mk_world (w_db w) t (w_uuid4 w) (w_clock w)).

(** A statement either yields the new store or raises, leaving the store as it was. *)
Definition _execute (stmt : store -> exn + store) : M unit :=
  fun w => match stmt (w_db w) with
           | inl e => (inl e, w)
           | inr d => (inr tt, mk_world d (w_fs w) (w_uuid4 w) (w_clock w))
           end.

Definition _fetch {A} (query : store -> A) : M A := fun w => (inr (query (w_db w)), w).

(** ** Data-access layer ([DatabaseManager]) *)

Definition _now : M Z := clock_now.
Definition _uid : M string := uuid4_str.

(** Row orders of the three [ORDER BY] clauses.  Rows with equal keys come
    out in an order SQL leaves open; no statement below depends on it. *)
Definition by_updated_at_desc (a b : session) : Prop := s_updated_at b ≤ s_updated_at a.
Definition by_created_at_asc (a b : message) : Prop := m_created_at a ≤ m_created_at b.
Definition by_uploaded_at_asc (a b : session_file) : Prop := f_uploaded_at a ≤ f_uploaded_at b.

#[global] Instance by_updated_at_desc_dec a b : Decision (by_updated_at_desc a b).
Proof. unfold by_updated_at_desc. apply _. Defined.
#[global] Instance by_created_at_asc_dec a b : Decision (by_created_at_asc a b).
Proof. unfold by_created_at_asc. apply _. Defined.
#[global] Instance by_uploaded_at_asc_dec a b : Decision (by_uploaded_at_asc a b).
Proof. unfold by_uploaded_at_asc. apply _. Defined.

(** *** Statements *)

(** INSERT INTO users (id, username, api_key, created_at) VALUES ($1, $2, $3, $4) *)
Definition insert_user (r : user) (d : store) : exn + store :=
  if decide (u_id r ∈ map u_id (users d)) then
    inl (UniqueViolationError "users_pkey")
  else if decide (u_username r ∈ map u_username (users d)) then
    inl (UniqueViolationError "users_username_key")
  else if decide (u_api_key r ∈ map u_api_key (users d)) then
    inl (UniqueViolationError "users_api_key_key")
  else inr (mk_store (users d ++ [r]) (sessions d) (messages d) (session_files d)).

(** INSERT INTO sessions (id, user_id, name, created_at, updated_at) VALUES ($1, ..., $5) *)
Definition insert_session (r : session) (d : store) : exn + store :=
  if decide (s_id r ∈ map s_id (sessions d)) then
    inl (UniqueViolationError "sessions_pkey")
  else if decide (s_user_id r ∈ map u_id (users d)) then
    inr (mk_store (users d) (sessions d ++ [r]) (messages d) (session_files d))
  else inl (ForeignKeyViolationError "sessions" "sessions_user_id_fkey").

(** DELETE FROM sessions WHERE id = $1, with the two ON DELETE CASCADE clauses *)
Definition delete_session_stmt (session_id : string) (d : store) : exn + store :=
  inr (mk_store (users d)
         (filter (fun s => s_id s ≠ session_id) (sessions d))
         (filter (fun m => m_session_id m ≠ session_id) (messages d))
         (filter (fun f => f_session_id f ≠ session_id) (session_files d))).

(** UPDATE sessions SET updated_at = $1 WHERE id = $2 *)
Definition set_updated_at (now : Z) (session_id : string) (s : session) : session :=
  if decide (s_id s = session_id)
  then mk_session (s_id s) (s_user_id s) (s_name s) (s_created_at s) now
  else s.

Definition touched (now : Z) (session_id : string) (d : store) : store :=
  mk_store (users d) (map (set_updated_at now session_id) (sessions d))
    (messages d) (session_files d).

Definition update_session_updated_at (now : Z) (session_id : string) (d : store) : exn + store :=
  inr (touched now session_id d).

(** INSERT INTO messages (id, session_id, role, content, created_at) VALUES ($1, ..., $5) *)
Definition insert_message (r : message) (d : store) : exn + store :=
  if decide (m_role r ∈ ["user"; "assistant"; "system"]) then
    if decide (m_id r ∈ map m_id (messages d)) then
      inl (UniqueViolationError "messages_pkey")
    else if decide (m_session_id r ∈ map s_id (sessions d)) then
      inr (mk_store (users d) (sessions d) (messages d ++ [r]) (session_files d))
    else inl (ForeignKeyViolationError "messages" "messages_session_id_fkey")
  else inl (CheckViolationError "messages" "messages_role_check").

(** INSERT INTO session_files (id, session_id, filename, path, uploaded_at)
    VALUES ($1, $2, $3, $4, $5)
    ON CONFLICT (session_id, filename) DO UPDATE SET path = $4, uploaded_at = $5 *)
Definition same_file_key (r : session_file) (f : session_file) : Prop :=
  f_session_id f = f_session_id r ∧ f_filename f = f_filename r.

#[global] Instance same_file_key_dec r f : Decision (same_file_key r f).
Proof. unfold same_file_key. apply _. Defined.

Definition upsert_session_file (r : session_file) (d : store) : exn + store :=
  if decide (Exists (same_file_key r) (session_files d)) then
    inr (mk_store (users d) (sessions d) (messages d)
           (map (fun f => if decide (same_file_key r f)
                          then mk_session_file (f_id f) (f_session_id f) (f_filename f)
                                 (f_path r) (f_uploaded_at r)
                          else f) (session_files d)))
  else if decide (f_id r ∈ map f_id (session_files d)) then
    inl (UniqueViolationError "session_files_pkey")
  else if decide (f_session_id r ∈ map s_id (sessions d)) then
    inr (mk_store (users d) (sessions d) (messages d) (session_files d ++ [r]))
  else inl (ForeignKeyViolationError "session_files" "session_files_session_id_fkey").

(** DELETE FROM session_files WHERE session_id = $1 AND filename = $2 *)
Definition delete_session_file_stmt (session_id filename : string) (d : store) : exn + store :=
  inr (mk_store (users d) (sessions d) (messages d)
         (filter (fun f => ¬ (f_session_id f = session_id ∧ f_filename f = filename))
            (session_files d))).

(** *** Queries *)

(** SELECT * FROM users WHERE username = $1 *)
Definition select_user_by_username (username : string) (d : store) : option user :=
  find (fun u => bool_decide (u_username u = username)) (users d).

(** SELECT * FROM users WHERE api_key = $1 *)
Definition select_user_by_api_key (api_key : string) (d : store) : option user :=
  find (fun u => bool_decide (u_api_key u = api_key)) (users d).

(** SELECT * FROM users WHERE username = $1 AND api_key = $2 *)
Definition select_user_by_credentials (username api_key : string) (d : store) : option user :=
  find (fun u => bool_decide (u_username u = username) && bool_decide (u_api_key u = api_key))
    (users d).

(** SELECT * FROM sessions WHERE id = $1 *)
Definition select_session (session_id : string) (d : store) : option session :=
  find (fun s => bool_decide (s_id s = session_id)) (sessions d).

(** SELECT * FROM sessions WHERE user_id = $1 ORDER BY updated_at DESC *)
Definition select_user_sessions (user_id : string) (d : store) : list session :=
  merge_sort by_updated_at_desc (filter (fun s => s_user_id s = user_id) (sessions d)).

(** SELECT * FROM messages WHERE session_id = $1 ORDER BY created_at ASC *)
Definition select_session_messages (session_id : string) (d : store) : list message :=
  merge_sort by_created_at_asc (filter (fun m => m_session_id m = session_id) (messages d)).

(** SELECT * FROM session_files WHERE session_id = $1 ORDER BY uploaded_at ASC *)
Definition select_session_files (session_id : string) (d : store) : list session_file :=
  merge_sort by_uploaded_at_asc
    (filter (fun f => f_session_id f = session_id) (session_files d)).

(** *** Methods *)

Module db.

Definition create_user (username api_key : string) : M string :=
  uid ← _uid;
  now ← _now;
  _execute (insert_user (mk_user uid username api_key now));;
  mret uid.

Definition get_user_by_username (username : string) : M (option user) :=
  _fetch (select_user_by_username username).

Definition get_user_by_api_key (api_key : string) : M (option user) :=
  _fetch (select_user_by_api_key api_key).

Definition get_user_by_credentials (username api_key : string) : M (option user) :=
  _fetch (select_user_by_credentials username api_key).

Definition create_session (user_id name : string) : M string :=
  sid ← _uid;
  now ← _now;
  _execute (insert_session (mk_session sid user_id name now now));;
  mret sid.

Definition get_session (session_id : string) : M (option session) :=
  _fetch (select_session session_id).

Definition get_user_sessions (user_id : string) : M (list session) :=
  _fetch (select_user_sessions user_id).

Definition delete_session (session_id : string) : M unit :=
  _execute (delete_session_stmt session_id).

Definition touch_session (session_id : string) : M unit :=
  now ← _now;
  _execute (update_session_updated_at now session_id).

Definition add_message (session_id role content : string) : M string :=
  mid ← _uid;
  now ← _now;
  _execute (insert_message (mk_message mid session_id role content now));;
  touch_session session_id;;
  mret mid.

Definition get_session_messages (session_id : string) : M (list message) :=
  _fetch (select_session_messages session_id).

Definition add_session_file (session_id filename path : string) : M unit :=
  fid ← _uid;
  now ← _now;
  _execute (upsert_session_file (mk_session_file fid session_id filename path now)).

Definition get_session_files (session_id : string) : M (list session_file) :=
  _fetch (select_session_files session_id).

Definition remove_session_file (session_id filename : string) : M unit :=
  _execute (delete_session_file_stmt session_id filename).

End db.

(** ** Paths ([pathlib.PurePosixPath]) *)

Definition sep : ascii := "/"%char.

(** [s.split("/")] *)
Fixpoint split_sep (s : string) : list string :=
  match s with
  | EmptyString => [EmptyString]
  | String a s' =>
      if Ascii.eqb a sep then EmptyString :: split_sep s'
      else match split_sep s' with
           | [] => [String a EmptyString]
           | h :: t => String a h :: t
           end
  end.

(** [len(part) - len(part.lstrip("/"))] *)
Fixpoint leading_seps (s : string) : nat :=
  match s with
  | String a s' => if Ascii.eqb a sep then S (leading_seps s') else O
  | EmptyString => O
  end.

(** A parsed path: the root ("", "/" or "//") and the components after it. *)
Record PurePath := mk_path {
  root : string;
  parts : list string
}.

(** Parsing drops empty components and ".", and keeps "..". *)
Definition Path (s : string) : PurePath :=
  mk_path
    (match leading_seps s with
     | O => ""
     | 2%nat => "//"
     | _ => "/"
     end)
    (filter (fun x => x ≠ "" ∧ x ≠ ".") (split_sep s)).

(** [p.name]: the final component, or the empty string when there is none. *)
Definition Path_name (p : PurePath) : string := default "" (last (parts p)).

(** [p / key]: an absolute [key] replaces [p]. *)
Definition truediv (p : PurePath) (key : string) : PurePath :=
  let q := Path key in
  if decide (root q = "") then mk_path (root p) (parts p ++ parts q) else q.

(** [str(p)] *)
Definition Path_str (p : PurePath) : string :=
  let s := root p +:+ String.concat "/" (parts p) in
  if decide (s = "") then "." else s.

(** ** File operations *)

Definition is_anchor (k : list string) : bool :=
  match k with
  | [] => true
  | [r] => bool_decide (r = "/") || bool_decide (r = "//")
  | _ => false
  end.

Definition is_dir (t : tree) (k : list string) : bool :=
  is_anchor k || match t !! k with Some Directory => true | _ => false end.

(** One step of path resolution from directory [k].  The parent of a root is
    the root; the parent of the working directory lies outside the tree; and
    ".." only ever resolves to a directory. *)
Definition parent (k : list string) : option (list string) :=
  match k with
  | [] => None
  | _ => if is_anchor k then Some k else Some (removelast k)
  end.

Definition descend (t : tree) (k : list string) (c : string) : option (list string) :=
  if decide (c = "..") then
    match parent k with
    | Some k' => if is_dir t k' then Some k' else None
    | None => None
    end
  else Some (k ++ [c]).

(** Resolution fails as soon as a component is looked up in something that
    is not a directory. *)
Fixpoint walk (t : tree) (k : list string) (cs : list string) : option (list string) :=
  match cs with
  | [] => Some k
  | c :: cs' =>
      if is_dir t k then
        match descend t k c with
        | Some k' => walk t k' cs'
        | None => None
        end
      else None
  end.

Definition locate (t : tree) (p : PurePath) : option (list string) :=
  walk t (if decide (root p = "") then [] else [root p]) (parts p).

(** [p.exists()] *)
Definition Path_exists (t : tree) (p : PurePath) : bool :=
  match locate t p with
  | Some k => is_anchor k || bool_decide (is_Some (t !! k))
  | None => false
  end.

(** [p.mkdir(exist_ok=True)] *)
Definition mkdir_exist_ok (p : PurePath) (t : tree) : exn + tree :=
  match locate t p with
  | None => inl (FileNotFoundError (Path_str p))
  | Some k =>
      if is_dir t k then inr t
      else match t !! k with
           | Some _ => inl (FileExistsError (Path_str p))
           | None => inr (<[k := Directory]> t)
           end
  end.

(** [with open(p, "wb") as f: f.write(content)].  A file that is replaced
    keeps its mode; a new one is readable. *)
Definition write_bytes (p : PurePath) (content : list byte) (t : tree) : exn + tree :=
  match locate t p with
  | None => inl (FileNotFoundError (Path_str p))
  | Some k =>
      if is_dir t k then inl (IsADirectoryError (Path_str p))
      else inr (<[k := RegularFile content
                         match t !! k with
                         | Some (RegularFile _ r) => r
                         | _ => true
                         end]> t)
  end.

(** [p.unlink()] *)
Definition unlink (p : PurePath) (t : tree) : exn + tree :=
  match locate t p with
  | None => inl (FileNotFoundError (Path_str p))
  | Some k =>
      if is_dir t k then inl (IsADirectoryError (Path_str p))
      else match t !! k with
           | Some _ => inr (delete k t)
           | None => inl (FileNotFoundError (Path_str p))
           end
  end.

(** [shutil.rmtree(p)] *)
Definition rmtree (p : PurePath) (t : tree) : exn + tree :=
  match locate t p with
  | None => inl (FileNotFoundError (Path_str p))
  | Some k =>
      if is_dir t k then
        inr (filter (fun kv : list string * node => ¬ k `prefix_of` kv.1) t)
      else match t !! k with
           | Some _ => inl (NotADirectoryError (Path_str p))
           | None => inl (FileNotFoundError (Path_str p))
           end
  end.

Definition _os (op : tree -> exn + tree) : M unit :=
  fun w => match op (w_fs w) with
           | inl e => (inl e, w)
           | inr t => (inr tt, mk_world (w_db w) t (w_uuid4 w) (w_clock w))
           end.

(** ** External collaborators *)

(** What one call of [CodeAssistAgent().stream_response(...)] does when it is
    iterated: it yields chunks and then either finishes or raises.  A failing
    constructor is a run that raises at once. *)
Inductive agent_run :=
| Finished
| Raised (e : exn)
| Chunk (chunk : string) (rest : agent_run).

Record platform := mk_platform {
  (* agent.stream_response(message=, history=, file_context=, username=) *)
  stream_response : string -> list message -> string -> string -> agent_run;
  (* the text decoding done by read_text(errors="replace") *)
  read_text_decode : list byte -> string;
  (* st_size reported for a directory *)
  dir_st_size : Z;
  (* datetime.strftime('%b %d %H:%M') *)
  strftime_b_d_HM : Z -> string;
  (* os.getenv("OLLAMA_MODEL", "qwen2.5-coder:1.5b") *)
  OLLAMA_MODEL : string
}.

(** ** HTTP layer ([main.py]) *)

Record RegisterRequest := mk_RegisterRequest { reg_username : string }.
Record LoginRequest := mk_LoginRequest { login_username : string; login_api_key : string }.
Record SessionCreate := mk_SessionCreate { sc_name : option string }.
Record ChatRequest := mk_ChatRequest {
  chat_session_id : string;
  chat_message : string;
  chat_api_key : string
}.
Record UploadFile := mk_UploadFile { upload_filename : string; upload_body : list byte }.

(** The dictionary serialised into one [data: <json>] frame. *)
Record sse_event := mk_event { ev_type : string; ev_content : string }.

(** A frame together with the store as it is when the frame is yielded. *)
Definition frame : Type := sse_event * store.

Inductive response :=
| Registered (user_id username api_key message : string)
| LoggedIn (user_id username api_key : string)
| SessionList (rows : list session)
| SessionCreated (session_id name : string)
| Message (message : string)
| MessageList (rows : list message)
| Uploaded (filename : string) (size : nat) (message : string)
| FileList (rows : list session_file)
| StreamingResponse (frames : list frame)
| Health (status model framework : string).

Definition nl : string := String (ascii_of_nat 10) EmptyString.

Definition UPLOAD_DIR : PurePath := Path "uploads".

(** [s.replace("-", "")] *)
Fixpoint remove_dashes (s : string) : string :=
  match s with
  | EmptyString => EmptyString
  | String a s' =>
      if Ascii.eqb a "-"%char then remove_dashes s' else String a (remove_dashes s')
  end.

(** [fp.stat().st_size] *)
Definition st_size (dir_size : Z) (t : tree) (p : PurePath) : exn + Z :=
  match locate t p with
  | None => inl (FileNotFoundError (Path_str p))
  | Some k =>
      match t !! k with
      | Some (RegularFile data _) => inr (Z.of_nat (length data))
      | Some Directory => inr dir_size
      | None => if is_anchor k then inr dir_size else inl (FileNotFoundError (Path_str p))
      end
  end.

(** [fp.read_text(errors="replace")] *)
Definition read_text (decode : list byte -> string) (t : tree) (p : PurePath) : exn + string :=
  match locate t p with
  | None => inl (FileNotFoundError (Path_str p))
  | Some k =>
      match t !! k with
      | Some (RegularFile data true) => inr (decode data)
      | Some (RegularFile data false) => inl (PermissionError (Path_str p))
      | Some Directory => inl (IsADirectoryError (Path_str p))
      | None => if is_anchor k then inl (IsADirectoryError (Path_str p))
                else inl (FileNotFoundError (Path_str p))
      end
  end.

(** [f"\n\n--- File: {f['filename']} ---\n"] *)
Definition file_label (f : session_file) : string :=
  nl +:+ nl +:+ "--- File: " +:+ f_filename f +:+ " ---" +:+ nl.

(** [not session or session["user_id"] != user["id"]] *)
Definition not_owned (session : option session) (user : user) : bool :=
  match session with
  | None => true
  | Some s => bool_decide (s_user_id s ≠ u_id user)
  end.

Section handlers.
Context (P : platform).

Definition verify_user (api_key : string) : M user :=
  user ← db.get_user_by_api_key api_key;
  match user with
  | None => raise (HTTPException 401 "Invalid API key")
  | Some user => mret user
  end.

Definition register (req : RegisterRequest) : M response :=
  existing ← db.get_user_by_username (reg_username req);
  match existing with
  | Some _ => raise (HTTPException 400 "Username already taken")
  | None =>
      u ← uuid4_str;
      let api_key := remove_dashes u in
      user_id ← db.create_user (reg_username req) api_key;
      mret (Registered user_id (reg_username req) api_key
              "Save your API key – it won't be shown again!")
  end.

Definition login (req : LoginRequest) : M response :=
  user ← db.get_user_by_credentials (login_username req) (login_api_key req);
  match user with
  | None => raise (HTTPException 401 "Invalid credentials")
  | Some user => mret (LoggedIn (u_id user) (u_username user) (login_api_key req))
  end.

Definition list_sessions (api_key : string) : M response :=
  user ← verify_user api_key;
  sessions ← db.get_user_sessions (u_id user);
  mret (SessionList sessions).

Definition create_session (req : SessionCreate) (api_key : string) : M response :=
  user ← verify_user api_key;
  name ← match sc_name req with
          | Some n => if decide (n = "")
                      then (t ← clock_now; mret ("Session " +:+ strftime_b_d_HM P t))
                      else mret n
          | None => t ← clock_now; mret ("Session " +:+ strftime_b_d_HM P t)
          end;
  session_id ← db.create_session (u_id user) name;
  mret (SessionCreated session_id name).

Definition delete_session (session_id api_key : string) : M response :=
  user ← verify_user api_key;
  session ← db.get_session session_id;
  if not_owned session user then raise (HTTPException 404 "Session not found")
  else
    db.delete_session session_id;;
    let session_upload_dir := truediv UPLOAD_DIR session_id in
    t ← get_fs;
    (if Path_exists t session_upload_dir then _os (rmtree session_upload_dir) else mret tt);;
    mret (Message "Session deleted").

Definition get_messages (session_id api_key : string) : M response :=
  user ← verify_user api_key;
  session ← db.get_session session_id;
  if not_owned session user then raise (HTTPException 404 "Session not found")
  else
    messages ← db.get_session_messages session_id;
    mret (MessageList messages).

Definition upload_file (session_id api_key : string) (file : UploadFile) : M response :=
  user ← verify_user api_key;
  session ← db.get_session session_id;
  if not_owned session user then raise (HTTPException 404 "Session not found")
  else
    let session_upload_dir := truediv UPLOAD_DIR session_id in
    _os (mkdir_exist_ok session_upload_dir);;
    let safe_name := Path_name (Path (upload_filename file)) in
    let file_path := truediv session_upload_dir safe_name in
    let content := upload_body file in
    _os (write_bytes file_path content);;
    db.add_session_file session_id safe_name (Path_str file_path);;
    mret (Uploaded safe_name (length content) "File uploaded successfully").

Definition list_session_files (session_id api_key : string) : M response :=
  user ← verify_user api_key;
  session ← db.get_session session_id;
  if not_owned session user then raise (HTTPException 404 "Session not found")
  else
    files ← db.get_session_files session_id;
    mret (FileList files).

Definition delete_file (session_id filename api_key : string) : M response :=
  user ← verify_user api_key;
  session ← db.get_session session_id;
  if not_owned session user then raise (HTTPException 404 "Session not found")
  else
    let file_path := truediv (truediv UPLOAD_DIR session_id) filename in
    t ← get_fs;
    (if Path_exists t file_path then _os (unlink file_path) else mret tt);;
    db.remove_session_file session_id filename;;
    mret (Message "File removed").

(** The body of the [for f in files] loop of [chat_stream].  The label is
    appended before the file is read; an exception raised at any point leaves
    [file_context] as it is at that point. *)
Definition read_into_context (t : tree) (file_context : string) (f : session_file) : string :=
  let fp := Path (f_path f) in
  if Path_exists t fp then
    match st_size (dir_st_size P) t fp with
    | inl _ => file_context
    | inr size =>
        if size <? 500000 then
          let file_context := file_context +:+ file_label f in
          match read_text (read_text_decode P) t fp with
          | inl _ => file_context
          | inr text => file_context +:+ text
          end
        else file_context
    end
  else file_context.

(** The [async for chunk in agent.stream_response(...)] loop: one token frame
    per chunk, and how the loop ends. *)
Fixpoint stream_loop (run : agent_run) (full_response : string) (d : store)
  : list frame * (exn + string) :=
  match run with
  | Finished => ([], inr full_response)
  | Raised e => ([], inl e)
  | Chunk chunk rest =>
      let full_response := full_response +:+ chunk in
      let '(frames, r) := stream_loop rest full_response d in
      ((mk_event "token" chunk, d) :: frames, r)
  end.

(** The generator nested in [chat_stream], with the variables it closes over
    as arguments.  It never raises: every exception becomes an error frame. *)
Definition generate (req : ChatRequest) (user : user) (history : list message)
    (file_context : string) : M (list frame) :=
  fun w =>
    let run := stream_response P (chat_message req) history file_context (u_username user) in
    let '(tokens, r) := stream_loop run "" (w_db w) in
    match r with
    | inl e => (inr (tokens ++ [(mk_event "error" (str_exn e), w_db w)]), w)
    | inr full_response =>
        match db.add_message (chat_session_id req) "assistant" full_response w with
        | (inl e, w') => (inr (tokens ++ [(mk_event "error" (str_exn e), w_db w')]), w')
        | (inr _, w') => (inr (tokens ++ [(mk_event "done" full_response, w_db w')]), w')
        end
    end.

Definition chat_stream (req : ChatRequest) : M response :=
  user ← verify_user (chat_api_key req);
  session ← db.get_session (chat_session_id req);
  if not_owned session user then raise (HTTPException 404 "Session not found")
  else
    history ← db.get_session_messages (chat_session_id req);
    files ← db.get_session_files (chat_session_id req);
    t ← get_fs;
    let file_context := fold_left (read_into_context t) files "" in
    db.add_message (chat_session_id req) "user" (chat_message req);;
    frames ← generate req user history file_context;
    mret (StreamingResponse frames).

Definition health : M response :=
  mret (Health "ok" (OLLAMA_MODEL P) "LlamaIndex + FastAPI").

(** The routes registered on [app]. *)
Inductive request :=
| POST_auth_register (req : RegisterRequest)
| POST_auth_login (req : LoginRequest)
| GET_sessions (api_key : string)
| POST_sessions (req : SessionCreate) (api_key : string)
| DELETE_session (session_id api_key : string)
| GET_session_messages (session_id api_key : string)
| POST_session_upload (session_id api_key : string) (file : UploadFile)
| GET_session_files (session_id api_key : string)
| DELETE_session_file (session_id filename api_key : string)
| POST_chat_stream (req : ChatRequest)
| GET_health.

Definition app (r : request) : M response :=
  match r with
  | POST_auth_register req => register req
  | POST_auth_login req => login req
  | GET_sessions api_key => list_sessions api_key
  | POST_sessions req api_key => create_session req api_key
  | DELETE_session session_id api_key => delete_session session_id api_key
  | GET_session_messages session_id api_key => get_messages session_id api_key
  | POST_session_upload session_id api_key file => upload_file session_id api_key file
  | GET_session_files session_id api_key => list_session_files session_id api_key
  | DELETE_session_file session_id filename api_key => delete_file session_id filename api_key
  | POST_chat_stream req => chat_stream req
  | GET_health => health
  end.

End handlers.

(** ** A small deployment, used to run the definitions on concrete requests *)

Module Demo.

Definition alice : user := mk_user "u1" "alice" "k1" 10.
Definition bob : user := mk_user "u2" "bob" "k2" 11.

Definition s1 : session := mk_session "s1" "u1" "first" 20 20.
Definition s2 : session := mk_session "s2" "u1" "second" 21 25.
Definition s3 : session := mk_session "s3" "u2" "other" 22 22.

Definition notes : session_file :=
  mk_session_file "f1" "s1" "notes.txt" "uploads/s1/notes.txt" 30.

Definition d0 : store := mk_store [alice; bob] [s1; s2; s3] [] [].
Definition d1 : store := mk_store [alice; bob] [s1; s2; s3] [] [notes].

Definition uploads_only : tree := {[ ["uploads"] := Directory ]}.

Definition hi : list byte := [x68; x69].

(** The recorded file is on disk and can be read. *)
Definition readable_tree : tree :=
  <[ ["uploads"; "s1"; "notes.txt"] := RegularFile hi true ]>
    (<[ ["uploads"; "s1"] := Directory ]> uploads_only).

(** The recorded file is on disk, but reading it is denied. *)
Definition unreadable_tree : tree :=
  <[ ["uploads"; "s1"; "notes.txt"] := RegularFile hi false ]>
    (<[ ["uploads"; "s1"] := Directory ]> uploads_only).

Definition ids (n : nat) : string := "id" +:+ pretty n.
Definition instants (n : nat) : Z := 1000 + Z.of_nat n.

Definition w0 : world := mk_world d0 uploads_only ids instants.
Definition w_readable : world := mk_world d1 readable_tree ids instants.
Definition w_unreadable : world := mk_world d1 unreadable_tree ids instants.

(** An agent that answers in two chunks, and one that fails after the first. *)
Definition answers : platform :=
  mk_platform (fun _ _ _ _ => Chunk "Hel" (Chunk "lo" Finished))
    (fun _ => "hi") 4096 (fun _ => "Jan 01 00:00") "qwen2.5-coder:1.5b".

Definition fails : platform :=
  mk_platform (fun _ _ _ _ => Chunk "Hel" (Raised (AgentException "model unavailable")))
    (fun _ => "hi") 4096 (fun _ => "Jan 01 00:00") "qwen2.5-coder:1.5b".

Definition hello : ChatRequest := mk_ChatRequest "s1" "hello" "k1".

(** The same deployment before bob opened his session. *)
Definition w_before_s3 : world :=
  mk_world (mk_store [alice; bob] [s1; s2] [] []) uploads_only ids instants.



(** A second turn on session s1, after a first one has been answered. *)
Definition after_first_turn : world := (chat_stream answers hello w0).2.



End Demo.

(** ** Vocabulary of the statements *)

(** The submitted pair is the pair of some stored user. *)
Definition stored_pair (d : store) (username api_key : string) : Prop :=
  ∃ u, u ∈ users d ∧ u_username u = username ∧ u_api_key u = api_key.

(** The endpoints that name a session, with the session id and the API key
    of the request. *)
Definition session_scoped (r : request) : option (string * string) :=
  match r with
  | DELETE_session session_id api_key => Some (session_id, api_key)
  | GET_session_messages session_id api_key => Some (session_id, api_key)
  | POST_session_upload session_id api_key _ => Some (session_id, api_key)
  | GET_session_files session_id api_key => Some (session_id, api_key)
  | DELETE_session_file session_id _ api_key => Some (session_id, api_key)
  | POST_chat_stream req => Some (chat_session_id req, chat_api_key req)
  | _ => None
  end.

Definition not_found : exn := HTTPException 404 "Session not found".

Definition is_HTTPException (e : exn) : bool :=
  match e with HTTPException _ _ => true | _ => false end.

(** What a run of the agent yields, and how it ends. *)
Fixpoint chunks_of (run : agent_run) : list string :=
  match run with
  | Finished | Raised _ => []
  | Chunk chunk rest => chunk :: chunks_of rest
  end.

Fixpoint outcome_of (run : agent_run) : option exn :=
  match run with
  | Finished => None
  | Raised e => Some e
  | Chunk _ rest => outcome_of rest
  end.

Definition join_chunks (chunks : list string) : string := foldr String.append "" chunks.

(** The world after [add_message] has read one identifier and the clock. *)
Definition after_insert (d : store) (w : world) : world :=
  mk_world d (w_fs w) (fun n => w_uuid4 w (S n)) (fun n => w_clock w (S n)).
Definition after_touch (d : store) (w : world) : world :=
  mk_world d (w_fs w) (fun n => w_uuid4 w (S n)) (fun n => w_clock w (S (S n))).

(** The two values [chat_stream] computes before it saves the user message. *)
Definition chat_history (req : ChatRequest) (w : world) : list message :=
  select_session_messages (chat_session_id req) (w_db w).

Definition chat_file_context (P : platform) (req : ChatRequest) (w : world) : string :=
  fold_left (read_into_context P (w_fs w))
    (select_session_files (chat_session_id req) (w_db w)) "".

(** The rows one chat turn writes. *)
Definition user_row (req : ChatRequest) (w : world) : message :=
  mk_message (w_uuid4 w 0%nat) (chat_session_id req) "user" (chat_message req)
    (w_clock w 0%nat).


Definition agent_run_of (P : platform) (req : ChatRequest) (w : world) (u : user) : agent_run :=
  stream_response P (chat_message req) (chat_history req w) (chat_file_context P req w)
    (u_username u).

Definition file_key (f : session_file) : string * string := (f_session_id f, f_filename f).

(** The table constraint UNIQUE(session_id, filename). *)
Definition files_key_unique (d : store) : Prop := NoDup (map file_key (session_files d)).

(** Every constraint declared in [CREATE_TABLES_SQL]. *)
Record store_ok (d : store) : Prop := mk_store_ok {
  users_pkey : NoDup (map u_id (users d));
  users_username_key : NoDup (map u_username (users d));
  users_api_key_key : NoDup (map u_api_key (users d));
  sessions_pkey : NoDup (map s_id (sessions d));
  sessions_user_id_fkey : ∀ s, s ∈ sessions d -> s_user_id s ∈ map u_id (users d);
  messages_pkey : NoDup (map m_id (messages d));
  messages_session_id_fkey : ∀ m, m ∈ messages d -> m_session_id m ∈ map s_id (sessions d);
  messages_role_check : ∀ m, m ∈ messages d -> m_role m ∈ ["user"; "assistant"; "system"];
  session_files_pkey : NoDup (map f_id (session_files d));
  session_files_session_id_filename_key : files_key_unique d;
  session_files_session_id_fkey :
    ∀ f, f ∈ session_files d -> f_session_id f ∈ map s_id (sessions d)
}.

(** A computation that leaves the constraints in force. *)
Definition keeps_store_ok {A} (m : M A) : Prop :=
  ∀ w, store_ok (w_db w) -> store_ok (w_db (m w).2).

(** The worlds reached from [w] by serving requests one after the other. *)
Inductive reachable (P : platform) (w : world) : world -> Prop :=
| reachable_refl : reachable P w w
| reachable_step (w1 : world) (r : request) :
    reachable P w w1 -> reachable P w (app P r w1).2.

(** The row a call of [add_session_file] submits. *)
Definition file_row (session_id filename path : string) (w : world) : session_file :=
  mk_session_file (w_uuid4 w 0%nat) session_id filename path (w_clock w 0%nat).

(** What an upsert does to a row already stored. *)
Definition overwrite (r f : session_file) : session_file :=
  if decide (same_file_key r f)
  then mk_session_file (f_id f) (f_session_id f) (f_filename f) (f_path r) (f_uploaded_at r)
  else f.

(** A run of upload records, one call after the other; a call that raises
    leaves the store as it was. *)
Fixpoint add_session_files (calls : list (string * string * string)) (w : world) : world :=
  match calls with
  | [] => w
  | (session_id, filename, path) :: rest =>
      add_session_files rest (db.add_session_file session_id filename path w).2
  end.



Definition with_fs (t : tree) (w : world) : world :=
  mk_world (w_db w) t (w_uuid4 w) (w_clock w).

(** The routes that only read. *)
Definition read_only (r : request) : bool :=
  match r with
  | POST_auth_login _ | GET_sessions _ | GET_session_messages _ _
  | GET_session_files _ _ | GET_health => true
  | _ => false
  end.



(** The API key a route authenticates with, for the routes that do. *)
Definition api_key_of (r : request) : option string :=
  match r with
  | GET_sessions api_key | POST_sessions _ api_key | DELETE_session _ api_key
  | GET_session_messages _ api_key | POST_session_upload _ api_key _
  | GET_session_files _ api_key | DELETE_session_file _ _ api_key => Some api_key
  | POST_chat_stream req => Some (chat_api_key req)
  | POST_auth_register _ | POST_auth_login _ | GET_health => None
  end.

(** The store once the record of a file has been deleted. *)
Definition without_file (session_id filename : string) (d : store) : store :=
  mk_store (users d) (sessions d) (messages d)
    (filter (fun f => ¬ (f_session_id f = session_id ∧ f_filename f = filename))
       (session_files d)).


(** What one chat turn may write in session [session_id]. *)
Definition turn_writes (session_id : string) (w w' : world) : Prop :=
  users (w_db w') = users (w_db w)
  ∧ session_files (w_db w') = session_files (w_db w)
  ∧ w_fs w' = w_fs w
  ∧ (∃ extra, messages (w_db w') = messages (w_db w) ++ extra
              ∧ Forall (fun m => m_session_id m = session_id) extra)
  ∧ (∀ x, s_id x ≠ session_id -> x ∈ sessions (w_db w') <-> x ∈ sessions (w_db w)).

(** * Properties *)

(** ** Running computations *)

Ltac unfold_M :=
  unfold mbind, M_bind, mret, M_ret, bind, ret, raise,
    _fetch, _execute, _os, get_fs, get_db, put_db, put_fs,
    _now, _uid, clock_now, uuid4_str in *.

Lemma find_Some_elem {A} (f : A -> bool) (l : list A) (x : A) :
  find f l = Some x -> x ∈ l ∧ f x = true.
Proof.
  intros H. apply find_some in H. destruct H as [Hin Hf].
  split; [by apply list_elem_of_In | done].
Qed.

Lemma find_None_elem {A} (f : A -> bool) (l : list A) :
  find f l = None -> ∀ x, x ∈ l -> f x = false.
Proof.
  intros H x Hx. apply (find_none f l H). by apply list_elem_of_In.
Qed.

Lemma find_is_Some {A} (f : A -> bool) (l : list A) (x : A) :
  x ∈ l -> f x = true -> ∃ y, find f l = Some y.
Proof.
  intros Hx Hf. destruct (find f l) as [y|] eqn:E; [by exists y |].
  rewrite (find_None_elem f l E x Hx) in Hf. discriminate.
Qed.

Lemma NoDup_map_inj_on {A B} (f : A -> B) (l : list A) (x y : A) :
  NoDup (map f l) -> x ∈ l -> y ∈ l -> f x = f y -> x = y.
Proof.
  induction l as [|a l IH]; simpl; intros Hnd Hx Hy Hf.
  - by apply elem_of_nil in Hx.
  - apply NoDup_cons in Hnd as [Ha Hnd].
    apply elem_of_cons in Hx as [-> | Hx]; apply elem_of_cons in Hy as [-> | Hy]; auto.
    + destruct Ha. rewrite Hf. apply list_elem_of_In, in_map, list_elem_of_In, Hy.
    + destruct Ha. rewrite <- Hf. apply list_elem_of_In, in_map, list_elem_of_In, Hx.
Qed.

(** ** Login *)

Lemma login_unfold (req : LoginRequest) (w : world) :
  login req w =
  match select_user_by_credentials (login_username req) (login_api_key req) (w_db w) with
  | Some u => (inr (LoggedIn (u_id u) (u_username u) (login_api_key req)), w)
  | None => (inl (HTTPException 401 "Invalid credentials"), w)
  end.
Proof.
  unfold login, db.get_user_by_credentials. unfold_M.
  by destruct (select_user_by_credentials _ _ _).
Qed.

Lemma select_user_by_credentials_Some d username api_key u :
  select_user_by_credentials username api_key d = Some u ->
  u ∈ users d ∧ u_username u = username ∧ u_api_key u = api_key.
Proof.
  intros H. apply find_Some_elem in H as [Hin Hf].
  apply andb_true_iff in Hf as [H1 H2].
  apply bool_decide_eq_true in H1, H2. done.
Qed.

Lemma select_user_by_credentials_None d username api_key :
  select_user_by_credentials username api_key d = None -> ¬ stored_pair d username api_key.
Proof.
  intros H (u & Hin & H1 & H2).
  pose proof (find_None_elem _ _ H u Hin) as Hf. simpl in Hf.
  rewrite !bool_decide_eq_true_2 in Hf by done. discriminate.
Qed.

Lemma stored_pair_found d username api_key :
  stored_pair d username api_key ->
  ∃ u, select_user_by_credentials username api_key d = Some u.
Proof.
  intros (u & Hin & H1 & H2). apply (find_is_Some _ _ u Hin).
  simpl. by rewrite !bool_decide_eq_true_2.
Qed.

(** C8. [login] returns a response exactly when the submitted (username,
    api_key) is the pair of a stored user, and the response then carries that
    user's id, username and api_key; every other pair is answered with 401
    and leaves the world as it was.  Under the two UNIQUE constraints of
    [users], a pair that differs from a stored pair in one field only is
    such another pair. *)
Theorem login_iff_stored_pair (req : LoginRequest) (w : world) :
  let d := w_db w in
  let username := login_username req in
  let api_key := login_api_key req in
  (stored_pair d username api_key ->
     ∃ u, u ∈ users d ∧ u_username u = username ∧ u_api_key u = api_key ∧
          login req w = (inr (LoggedIn (u_id u) username api_key), w))
  ∧ (¬ stored_pair d username api_key ->
       login req w = (inl (HTTPException 401 "Invalid credentials"), w))
  ∧ ((∃ r, (login req w).1 = inr r) <-> stored_pair d username api_key)
  ∧ (NoDup (map u_username (users d)) -> NoDup (map u_api_key (users d)) ->
     ∀ u, u ∈ users d ->
       (u_username u = username ∧ u_api_key u ≠ api_key) ∨
       (u_username u ≠ username ∧ u_api_key u = api_key) ->
       login req w = (inl (HTTPException 401 "Invalid credentials"), w)).
Proof.
  intros d username api_key. rewrite login_unfold. fold d username api_key.
  destruct (select_user_by_credentials username api_key d) as [u|] eqn:E.
  - pose proof (select_user_by_credentials_Some _ _ _ _ E) as (Hin & H1 & H2).
    assert (Hst : stored_pair d username api_key) by (by exists u).
    split; [| split; [| split]].
    + intros _. exists u. by rewrite H1, H2.
    + intros Hn. by destruct Hn.
    + split; [done | intros _; by eexists].
    + intros Hu Hk v Hv Hdiff. exfalso.
      destruct Hdiff as [[Hv1 Hv2] | [Hv1 Hv2]].
      * assert (u = v) as ->; [| done].
        apply (NoDup_map_inj_on u_username (users d)); auto.
        by rewrite H1, Hv1.
      * assert (u = v) as ->; [| done].
        apply (NoDup_map_inj_on u_api_key (users d)); auto.
        by rewrite H2, Hv2.
  - pose proof (select_user_by_credentials_None _ _ _ E) as Hn.
    split; [| split; [| split]].
    + intros H. by destruct Hn.
    + done.
    + split; [intros [r Hr]; discriminate | intros H; by destruct Hn].
    + done.
Qed.

(** ** Authentication and ownership checks *)

Lemma verify_user_unfold (api_key : string) (w : world) :
  verify_user api_key w =
  match select_user_by_api_key api_key (w_db w) with
  | Some u => (inr u, w)
  | None => (inl (HTTPException 401 "Invalid API key"), w)
  end.
Proof.
  unfold verify_user, db.get_user_by_api_key. unfold_M.
  by destruct (select_user_by_api_key _ _).
Qed.

Lemma session_scoped_guard (P : platform) (r : request) (session_id api_key : string)
    (w : world) (u : user) :
  session_scoped r = Some (session_id, api_key) ->
  select_user_by_api_key api_key (w_db w) = Some u ->
  not_owned (select_session session_id (w_db w)) u = true ->
  app P r w = (inl not_found, w).
Proof.
  intros Hr Hu Hn.
  destruct r; simpl in Hr; simplify_eq; simpl;
    unfold delete_session, get_messages, upload_file, list_session_files,
      delete_file, chat_stream;
    unfold mbind at 1, M_bind at 1, bind at 1; rewrite verify_user_unfold, Hu;
    unfold db.get_session; unfold_M; rewrite Hn; reflexivity.
Qed.

(** C2. On each of the six endpoints that name a session, a request whose
    API key resolves to a user gets the same answer, 404 "Session not found",
    whether the session does not exist or belongs to another user, and the
    world is left as it was. *)
Theorem absent_and_foreign_session_same_404 (P : platform) (r : request)
    (session_id api_key : string) (w1 w2 : world) (u1 u2 : user) (s : session) :
  session_scoped r = Some (session_id, api_key) ->
  select_user_by_api_key api_key (w_db w1) = Some u1 ->
  select_session session_id (w_db w1) = None ->
  select_user_by_api_key api_key (w_db w2) = Some u2 ->
  select_session session_id (w_db w2) = Some s ->
  s_user_id s ≠ u_id u2 ->
  app P r w1 = (inl (HTTPException 404 "Session not found"), w1)
  ∧ app P r w2 = (inl (HTTPException 404 "Session not found"), w2)
  ∧ (app P r w1).1 = (app P r w2).1.
Proof.
  intros Hr Hu1 Hs1 Hu2 Hs2 Hne.
  assert (H1 : app P r w1 = (inl not_found, w1)).
  { apply (session_scoped_guard P r session_id api_key w1 u1); auto.
    by rewrite Hs1. }
  assert (H2 : app P r w2 = (inl not_found, w2)).
  { apply (session_scoped_guard P r session_id api_key w2 u2); auto.
    rewrite Hs2. simpl. by apply bool_decide_eq_true_2. }
  split; [exact H1 | split; [exact H2 |]].
  by rewrite H1, H2.
Qed.

(** ** Rejected requests write nothing *)

Lemma add_message_not_http session_id role content w e w' :
  db.add_message session_id role content w = (inl e, w') -> is_HTTPException e = false.
Proof.
  unfold db.add_message, db.touch_session, insert_message, update_session_updated_at.
  unfold_M. simpl. intros H.
  repeat case_decide; simplify_eq; done.
Qed.

Lemma generate_returns P req user history file_context w :
  ∃ frames w', generate P req user history file_context w = (inr frames, w').
Proof.
  unfold generate.
  destruct (stream_loop _ _ _) as [tokens [e|full]].
  - eauto.
  - destruct (db.add_message _ _ _ _) as [[e|mid] w']; eauto.
Qed.

Ltac run_db :=
  unfold db.create_user, db.get_user_by_username, db.get_user_by_api_key,
    db.get_user_by_credentials, db.create_session, db.get_session,
    db.get_user_sessions, db.delete_session, db.touch_session, db.add_message,
    db.get_session_messages, db.add_session_file, db.get_session_files,
    db.remove_session_file in *.

Ltac run_stmt :=
  unfold insert_user, insert_session, delete_session_stmt, update_session_updated_at,
    insert_message, upsert_session_file, delete_session_file_stmt,
    mkdir_exist_ok, write_bytes, unlink, rmtree in *.

(** C10. A request answered with 401 or 404 leaves the store and the file
    tree exactly as they were: on every route the API-key and ownership
    checks come before the first write. *)
Theorem rejected_request_writes_nothing (P : platform) (r : request) (w w' : world)
    (status_code : Z) (detail : string) :
  app P r w = (inl (HTTPException status_code detail), w') ->
  status_code = 401 ∨ status_code = 404 ->
  w_db w' = w_db w ∧ w_fs w' = w_fs w.
Proof.
  intros H Hcode.
  assert (Hw : w' = w); [| by subst].
  destruct r; simpl in H.
  - (* register *)
    unfold register in H. run_db. unfold_M. simpl in H.
    destruct (select_user_by_username _ _).
    + simplify_eq. lia.
    + run_stmt. simpl in H. repeat case_decide; simplify_eq.
  - (* login *)
    rewrite login_unfold in H. destruct (select_user_by_credentials _ _ _); by simplify_eq.
  - (* list_sessions *)
    unfold list_sessions in H. unfold mbind at 1, M_bind at 1, bind at 1 in H.
    rewrite verify_user_unfold in H.
    destruct (select_user_by_api_key _ _); [| by simplify_eq].
    run_db. unfold_M. simplify_eq.
  - (* create_session *)
    unfold create_session in H. unfold mbind at 1, M_bind at 1, bind at 1 in H.
    rewrite verify_user_unfold in H.
    destruct (select_user_by_api_key _ _); [| by simplify_eq].
    run_db. unfold_M. run_stmt. simpl in H.
    destruct (sc_name req) as [n|]; [destruct (decide (n = "")) |];
      simpl in H; repeat case_decide; simplify_eq.
  - (* delete_session *)
    unfold delete_session in H. unfold mbind at 1, M_bind at 1, bind at 1 in H.
    rewrite verify_user_unfold in H.
    destruct (select_user_by_api_key _ _); [| by simplify_eq].
    run_db. unfold_M. simpl in H.
    destruct (not_owned _ _); [by simplify_eq |].
    run_stmt. simpl in H. repeat case_match; simplify_eq.
  - (* get_messages *)
    unfold get_messages in H. unfold mbind at 1, M_bind at 1, bind at 1 in H.
    rewrite verify_user_unfold in H.
    destruct (select_user_by_api_key _ _); [| by simplify_eq].
    run_db. unfold_M. simpl in H.
    destruct (not_owned _ _); by simplify_eq.
  - (* upload_file *)
    unfold upload_file in H. unfold mbind at 1, M_bind at 1, bind at 1 in H.
    rewrite verify_user_unfold in H.
    destruct (select_user_by_api_key _ _); [| by simplify_eq].
    run_db. unfold_M. simpl in H.
    destruct (not_owned _ _); [by simplify_eq |].
    destruct (mkdir_exist_ok _ _) as [e1|t1] eqn:E1.
    { unfold mkdir_exist_ok in E1. repeat case_match; simplify_eq. }
    simpl in H.
    destruct (write_bytes _ _ _) as [e2|t2] eqn:E2.
    { unfold write_bytes in E2. repeat case_match; simplify_eq. }
    simpl in H. unfold upsert_session_file in H. simpl in H.
    repeat case_decide; simplify_eq.
  - (* list_session_files *)
    unfold list_session_files in H. unfold mbind at 1, M_bind at 1, bind at 1 in H.
    rewrite verify_user_unfold in H.
    destruct (select_user_by_api_key _ _); [| by simplify_eq].
    run_db. unfold_M. simpl in H.
    destruct (not_owned _ _); by simplify_eq.
  - (* delete_file *)
    unfold delete_file in H. unfold mbind at 1, M_bind at 1, bind at 1 in H.
    rewrite verify_user_unfold in H.
    destruct (select_user_by_api_key _ _); [| by simplify_eq].
    run_db. unfold_M. simpl in H.
    destruct (not_owned _ _); [by simplify_eq |].
    destruct (Path_exists _ _); simpl in H.
    + destruct (unlink _ _) as [e1|t1] eqn:E1.
      { unfold unlink in E1. repeat case_match; simplify_eq. }
      simpl in H. simplify_eq.
    + simplify_eq.
  - (* chat_stream *)
    unfold chat_stream in H. unfold mbind at 1, M_bind at 1, bind at 1 in H.
    rewrite verify_user_unfold in H.
    destruct (select_user_by_api_key _ _) as [u|]; [| by simplify_eq].
    unfold db.get_session, db.get_session_messages, db.get_session_files in H.
    unfold mbind, M_bind, bind, _fetch, get_fs, mret, M_ret, ret, raise in H.
    destruct (not_owned _ _); [by simplify_eq |].
    destruct (db.add_message _ _ _ _) as [[e|mid] w1] eqn:E1.
    { apply add_message_not_http in E1. by simplify_eq. }
    destruct (generate_returns P req u (select_session_messages (chat_session_id req) (w_db w))
                (fold_left (read_into_context P (w_fs w))
                   (select_session_files (chat_session_id req) (w_db w)) "") w1)
      as (frames & w2 & Hg).
    rewrite Hg in H. simplify_eq.
  - (* health *)
    unfold health in H. unfold_M. simplify_eq.
Qed.

(** ** The chat stream *)

Lemma string_app_assoc (a b c : string) : (a +:+ b) +:+ c = a +:+ (b +:+ c).
Proof.
  induction a as [|x a IH]; [done |].
  change (String x ((a +:+ b) +:+ c) = String x (a +:+ (b +:+ c))). by rewrite IH.
Qed.

Lemma string_app_nil_r (a : string) : a +:+ "" = a.
Proof.
  induction a as [|x a IH]; [done |].
  change (String x (a +:+ "") = String x a). by rewrite IH.
Qed.

Lemma stream_loop_spec (run : agent_run) (acc : string) (d : store) :
  stream_loop run acc d =
  (map (fun chunk => (mk_event "token" chunk, d)) (chunks_of run),
   match outcome_of run with
   | None => inr (acc +:+ join_chunks (chunks_of run))
   | Some e => inl e
   end).
Proof.
  revert acc. induction run as [| e | chunk rest IH]; intros acc;
    cbn [stream_loop chunks_of outcome_of map].
  - unfold join_chunks. cbn [foldr]. by rewrite string_app_nil_r.
  - done.
  - rewrite IH. destruct (outcome_of rest); [done |].
    unfold join_chunks. cbn [foldr]. by rewrite string_app_assoc.
Qed.

Lemma add_message_unfold (session_id role content : string) (w : world) :
  db.add_message session_id role content w =
  match insert_message
          (mk_message (w_uuid4 w 0%nat) session_id role content (w_clock w 0%nat)) (w_db w) with
  | inl e => (inl e, after_insert (w_db w) w)
  | inr d => (inr (w_uuid4 w 0%nat), after_touch (touched (w_clock w 1%nat) session_id d) w)
  end.
Proof.
  unfold db.add_message, db.touch_session. unfold_M. simpl.
  by destruct (insert_message _ _).
Qed.

Lemma insert_message_inr (r : message) (d d' : store) :
  insert_message r d = inr d' <->
  (m_role r ∈ ["user"; "assistant"; "system"]) ∧ (m_id r ∉ map m_id (messages d)) ∧
  (m_session_id r ∈ map s_id (sessions d)) ∧
  d' = mk_store (users d) (sessions d) (messages d ++ [r]) (session_files d).
Proof.
  unfold insert_message. split.
  - intros Hx. repeat case_decide; simplify_eq. by split_and!.
  - intros (H1 & H2 & H3 & ->).
    rewrite (decide_True _ _ H1), (decide_False _ _ H2), (decide_True _ _ H3). done.
Qed.


Lemma elem_of_map_2 {A B} (f : A -> B) (l : list A) (x : A) : x ∈ l -> f x ∈ map f l.
Proof. intros H. by apply list_elem_of_In, in_map, list_elem_of_In. Qed.

Lemma elem_of_map_1 {A B} (f : A -> B) (l : list A) (y : B) :
  y ∈ map f l -> ∃ x, x ∈ l ∧ f x = y.
Proof.
  intros H. apply list_elem_of_In, in_map_iff in H as (x & Hx & Hin).
  exists x. split; [by apply list_elem_of_In | done].
Qed.

Lemma map_s_id_touched now session_id l :
  map s_id (map (set_updated_at now session_id) l) = map s_id l.
Proof.
  rewrite map_map. apply map_ext. intros s. unfold set_updated_at.
  by case_decide.
Qed.

Lemma chat_stream_authorized (P : platform) (req : ChatRequest) (w : world) (u : user) :
  select_user_by_api_key (chat_api_key req) (w_db w) = Some u ->
  not_owned (select_session (chat_session_id req) (w_db w)) u = false ->
  chat_stream P req w =
  match db.add_message (chat_session_id req) "user" (chat_message req) w with
  | (inl e, w1) => (inl e, w1)
  | (inr _, w1) =>
      match generate P req u (chat_history req w) (chat_file_context P req w) w1 with
      | (inl e, w2) => (inl e, w2)
      | (inr frames, w2) => (inr (StreamingResponse frames), w2)
      end
  end.
Proof.
  intros Hu Hn. unfold chat_stream.
  unfold mbind at 1, M_bind at 1, bind at 1. rewrite verify_user_unfold, Hu.
  unfold db.get_session, db.get_session_messages, db.get_session_files.
  unfold mbind, M_bind, bind, _fetch, get_fs, mret, M_ret, ret, raise.
  rewrite Hn. fold (chat_history req w). fold (chat_file_context P req w).
  destruct (db.add_message _ _ _ w) as [[e|mid] w1]; [done |].
  by destruct (generate _ _ _ _ _ w1) as [[e|frames] w2].
Qed.

Lemma add_message_saved (session_id role content : string) (w : world) (mid : string)
    (w1 : world) :
  db.add_message session_id role content w = (inr mid, w1) ->
  let r := mk_message (w_uuid4 w 0%nat) session_id role content (w_clock w 0%nat) in
  mid = w_uuid4 w 0%nat ∧
  (w_uuid4 w 0%nat ∉ map m_id (messages (w_db w))) ∧
  (session_id ∈ map s_id (sessions (w_db w))) ∧
  w1 = after_touch (touched (w_clock w 1%nat) session_id
                      (mk_store (users (w_db w)) (sessions (w_db w))
                         (messages (w_db w) ++ [r]) (session_files (w_db w)))) w.
Proof.
  rewrite add_message_unfold. intros H r.
  destruct (insert_message _ _) as [e|d] eqn:E; [done |].
  apply insert_message_inr in E as (_ & Hid & Hs & ->). simpl in Hid, Hs.
  by simplify_eq.
Qed.


Lemma generate_unfold (P : platform) (req : ChatRequest) (u : user)
    (history : list message) (file_context : string) (w : world) :
  let run := stream_response P (chat_message req) history file_context (u_username u) in
  let tokens := map (fun chunk => (mk_event "token" chunk, w_db w)) (chunks_of run) in
  generate P req u history file_context w =
  match outcome_of run with
  | Some e => (inr (tokens ++ [(mk_event "error" (str_exn e), w_db w)]), w)
  | None =>
      let full := join_chunks (chunks_of run) in
      match db.add_message (chat_session_id req) "assistant" full w with
      | (inl e, w') => (inr (tokens ++ [(mk_event "error" (str_exn e), w_db w')]), w')
      | (inr _, w') => (inr (tokens ++ [(mk_event "done" full, w_db w')]), w')
      end
  end.
Proof.
  intros run tokens. unfold generate. fold run. rewrite stream_loop_spec. fold tokens.
  destruct (outcome_of run); [done |]. done.
Qed.

Lemma map_fst_tokens (d : store) (chunks : list string) :
  map fst (map (fun chunk => (mk_event "token" chunk, d)) chunks)
  = map (mk_event "token") chunks.
Proof. rewrite map_map. by apply map_ext. Qed.

Lemma not_owned_false (o : option session) (u : user) (s : session) :
  o = Some s -> s_user_id s = u_id u -> not_owned o u = false.
Proof. intros -> H. simpl. apply bool_decide_eq_false_2. by intros ?. Qed.


(** C6. When an exception is raised during generation, by the agent or
    by the statement that would save the reply, the stream is the token events
    of the chunks received so far followed by one error event carrying
    [str(e)], and nothing after it; no assistant row is written, and the user
    row saved before generation began is still there. *)
Theorem chat_stream_generation_error (P : platform) (req : ChatRequest) (w w1 : world)
    (u : user) (s : session) (mid : string) (e : exn) :
  let run := agent_run_of P req w u in
  let full := join_chunks (chunks_of run) in
  select_user_by_api_key (chat_api_key req) (w_db w) = Some u ->
  select_session (chat_session_id req) (w_db w) = Some s ->
  s_user_id s = u_id u ->
  db.add_message (chat_session_id req) "user" (chat_message req) w = (inr mid, w1) ->
  (outcome_of run = Some e
   ∨ (outcome_of run = None
      ∧ (db.add_message (chat_session_id req) "assistant" full w1).1 = inl e)) ->
  ∃ (frames : list frame) (w' : world),
    chat_stream P req w = (inr (StreamingResponse frames), w')
    ∧ map fst frames
      = map (mk_event "token") (chunks_of run) ++ [mk_event "error" (str_exn e)]
    ∧ messages (w_db w') = messages (w_db w) ++ [user_row req w]
    ∧ (∀ m, m ∈ messages (w_db w') -> m_role m = "assistant" -> m ∈ messages (w_db w))
    ∧ user_row req w ∈ messages (w_db w').
Proof.
  intros run full Hu Hs Hown Hadd Hexn.
  rewrite (chat_stream_authorized P req w u Hu (not_owned_false _ _ _ Hs Hown)), Hadd.
  pose proof (add_message_saved _ _ _ _ _ _ Hadd) as (_ & _ & _ & Hw1).
  cbv zeta in Hw1. fold (user_row req w) in Hw1.
  assert (Hm1 : messages (w_db w1) = messages (w_db w) ++ [user_row req w]).
  { rewrite Hw1. reflexivity. }
  assert (Hrest : ∀ d, messages d = messages (w_db w) ++ [user_row req w] ->
            (∀ m, m ∈ messages d -> m_role m = "assistant" -> m ∈ messages (w_db w))
            ∧ user_row req w ∈ messages d).
  { intros d ->. split.
    - intros m Hin Hrole. apply elem_of_app in Hin as [Hin | Hin]; [done |].
      apply list_elem_of_singleton in Hin. subst m. discriminate.
    - apply elem_of_app. right. by apply list_elem_of_singleton. }
  rewrite generate_unfold. fold (agent_run_of P req w u). fold run. cbv zeta. fold full.
  destruct Hexn as [Hout | [Hout Hfail]]; rewrite Hout.
  - eexists _, w1. split; [reflexivity |]. split.
    { rewrite map_app. simpl. by rewrite map_fst_tokens. }
    split; [exact Hm1 | by apply Hrest].
  - rewrite add_message_unfold in Hfail |- *.
    destruct (insert_message _ _) as [e'|d] eqn:E; simpl in Hfail; [| discriminate].
    assert (e' = e) as -> by congruence.
    eexists _, _. split; [reflexivity |]. split.
    { rewrite map_app. simpl. by rewrite map_fst_tokens. }
    simpl. split; [exact Hm1 | by apply Hrest].
Qed.


(** ** Session ordering *)

#[global] Instance by_updated_at_desc_total : Total by_updated_at_desc.
Proof. intros a b. unfold by_updated_at_desc. lia. Qed.
#[global] Instance by_updated_at_desc_trans : Transitive by_updated_at_desc.
Proof. intros a b c. unfold by_updated_at_desc. lia. Qed.
#[global] Instance by_created_at_asc_total : Total by_created_at_asc.
Proof. intros a b. unfold by_created_at_asc. lia. Qed.
#[global] Instance by_created_at_asc_trans : Transitive by_created_at_asc.
Proof. intros a b c. unfold by_created_at_asc. lia. Qed.
#[global] Instance by_uploaded_at_asc_total : Total by_uploaded_at_asc.
Proof. intros a b. unfold by_uploaded_at_asc. lia. Qed.
#[global] Instance by_uploaded_at_asc_trans : Transitive by_uploaded_at_asc.
Proof. intros a b c. unfold by_uploaded_at_asc. lia. Qed.

Lemma select_user_sessions_sorted (user_id : string) (d : store) :
  Sorted by_updated_at_desc (select_user_sessions user_id d).
Proof. apply Sorted_merge_sort; apply _. Qed.

Lemma select_user_sessions_perm (user_id : string) (d : store) :
  select_user_sessions user_id d ≡ₚ filter (fun s => s_user_id s = user_id) (sessions d).
Proof. apply merge_sort_Permutation. Qed.

Lemma set_updated_at_fields (now : Z) (session_id : string) (s : session) :
  s_id (set_updated_at now session_id s) = s_id s
  ∧ s_user_id (set_updated_at now session_id s) = s_user_id s
  ∧ s_updated_at (set_updated_at now session_id s)
    = (if decide (s_id s = session_id) then now else s_updated_at s).
Proof. unfold set_updated_at. by case_decide. Qed.

(** C4. A successful [add_message] leaves the session's [updated_at] at the
    instant read for the touch and the other sessions as they were;
    [get_user_sessions] returns the user's sessions, newest [updated_at]
    first; so when that instant is later than the [updated_at] of the user's
    other sessions, the session written to heads the next listing. *)
Theorem add_message_touches_and_reorders (session_id role content : string)
    (w w' : world) (mid : string) :
  db.add_message session_id role content w = (inr mid, w') ->
  let now := w_clock w 1%nat in
  (∃ s, s ∈ sessions (w_db w') ∧ s_id s = session_id)
  ∧ (∀ s, s ∈ sessions (w_db w') -> s_id s = session_id -> s_updated_at s = now)
  ∧ (∀ s, s ∈ sessions (w_db w') -> s_id s ≠ session_id -> s ∈ sessions (w_db w))
  ∧ (∀ user_id,
       db.get_user_sessions user_id w' = (inr (select_user_sessions user_id (w_db w')), w')
       ∧ Sorted by_updated_at_desc (select_user_sessions user_id (w_db w'))
       ∧ select_user_sessions user_id (w_db w')
         ≡ₚ filter (fun s => s_user_id s = user_id) (sessions (w_db w')))
  ∧ (∀ user_id,
       (∃ s, s ∈ sessions (w_db w) ∧ s_id s = session_id ∧ s_user_id s = user_id) ->
       (∀ s, s ∈ sessions (w_db w) -> s_user_id s = user_id -> s_id s ≠ session_id ->
             s_updated_at s < now) ->
       ∃ s' rest, select_user_sessions user_id (w_db w') = s' :: rest
                  ∧ s_id s' = session_id).
Proof.
  intros Hadd now.
  pose proof (add_message_saved _ _ _ _ _ _ Hadd) as (_ & _ & Hs & Hw').
  cbv zeta in Hw'.
  assert (Hsess : sessions (w_db w') = map (set_updated_at now session_id) (sessions (w_db w))).
  { rewrite Hw'. reflexivity. }
  assert (Hback : ∀ s', s' ∈ sessions (w_db w') ->
            ∃ s, s ∈ sessions (w_db w) ∧ s' = set_updated_at now session_id s).
  { intros s' Hin. rewrite Hsess in Hin. apply elem_of_map_1 in Hin as (s & ? & ?). eauto. }
  split_and!.
  - apply elem_of_map_1 in Hs as (s & Hin & Hid).
    exists (set_updated_at now session_id s). split.
    + rewrite Hsess. by apply elem_of_map_2.
    + by rewrite (proj1 (set_updated_at_fields _ _ _)).
  - intros s' Hin Hid. apply Hback in Hin as (s & Hin & ->).
    destruct (set_updated_at_fields now session_id s) as (E1 & _ & E3).
    rewrite E1 in Hid. rewrite E3. by rewrite decide_True.
  - intros s' Hin Hid. apply Hback in Hin as (s & Hin & ->).
    destruct (set_updated_at_fields now session_id s) as (E1 & _ & _).
    rewrite E1 in Hid. unfold set_updated_at. by rewrite decide_False.
  - intros user_id. split_and!.
    + reflexivity.
    + apply select_user_sessions_sorted.
    + apply select_user_sessions_perm.
  - intros user_id (s0 & Hin0 & Hid0 & Hu0) Holder.
    set (l := select_user_sessions user_id (w_db w')).
    assert (Hl : l ≡ₚ filter (fun s => s_user_id s = user_id) (sessions (w_db w')))
      by apply select_user_sessions_perm.
    assert (Hsorted : StronglySorted by_updated_at_desc l).
    { apply Sorted_StronglySorted; [apply _ | apply select_user_sessions_sorted]. }
    set (s0' := set_updated_at now session_id s0).
    destruct (set_updated_at_fields now session_id s0) as (F1 & F2 & F3).
    rewrite decide_True in F3 by done. fold s0' in F1, F2, F3.
    assert (Hin0' : s0' ∈ l).
    { rewrite Hl. apply list_elem_of_filter. split; [congruence |].
      rewrite Hsess. by apply elem_of_map_2. }
    destruct l as [|h t] eqn:El; [by apply elem_of_nil in Hin0' |].
    exists h, t. split; [done |].
    destruct (decide (s_id h = session_id)) as [|Hne]; [done | exfalso].
    assert (Hh : h ∈ h :: t) by (apply elem_of_cons; by left).
    rewrite Hl in Hh. apply list_elem_of_filter in Hh as [Hhu Hh].
    apply Hback in Hh as (h0 & Hh0 & Hheq).
    destruct (set_updated_at_fields now session_id h0) as (G1 & G2 & G3).
    rewrite <- Hheq in G1, G2, G3.
    rewrite decide_False in G3 by congruence.
    assert (Hlt : s_updated_at h < now).
    { rewrite G3. apply Holder; congruence. }
    apply elem_of_cons in Hin0' as [Heq | Hint].
    + subst h. congruence.
    + apply StronglySorted_inv in Hsorted as [_ Hall].
      rewrite Forall_forall in Hall. specialize (Hall _ Hint).
      unfold by_updated_at_desc in Hall. lia.
Qed.

(** ** Session files *)

Lemma add_session_file_unfold (session_id filename path : string) (w : world) :
  db.add_session_file session_id filename path w =
  match upsert_session_file (file_row session_id filename path w) (w_db w) with
  | inl e => (inl e, after_insert (w_db w) w)
  | inr d => (inr tt, after_insert d w)
  end.
Proof.
  unfold db.add_session_file. unfold_M. simpl. fold (file_row session_id filename path w).
  by destruct (upsert_session_file _ _).
Qed.

Lemma same_file_key_iff (r f : session_file) : same_file_key r f <-> file_key f = file_key r.
Proof. unfold same_file_key, file_key. split; [intros [-> ->] | intros [= -> ->]]; done. Qed.

Lemma file_key_overwrite (r f : session_file) : file_key (overwrite r f) = file_key f.
Proof. unfold overwrite. by case_decide. Qed.

Lemma upsert_cases (r : session_file) (d d' : store) :
  upsert_session_file r d = inr d' ->
  (Exists (same_file_key r) (session_files d)
   ∧ session_files d' = map (overwrite r) (session_files d))
  ∨ (¬ Exists (same_file_key r) (session_files d)
     ∧ session_files d' = session_files d ++ [r]).
Proof.
  unfold upsert_session_file. intros H.
  repeat case_decide; simplify_eq; [left | right]; done.
Qed.

Lemma upsert_keeps_unique (r : session_file) (d d' : store) :
  upsert_session_file r d = inr d' -> files_key_unique d -> files_key_unique d'.
Proof.
  intros H Hnd. unfold files_key_unique in *.
  destruct (upsert_cases _ _ _ H) as [[_ ->] | [Hno ->]].
  - rewrite map_map. erewrite map_ext; [exact Hnd |]. apply file_key_overwrite.
  - rewrite map_app. simpl. apply NoDup_app. split_and!; [done | | apply NoDup_singleton].
    intros k Hk Hk'. apply list_elem_of_singleton in Hk'. subst k.
    apply elem_of_map_1 in Hk as (f & Hf & Hkey).
    apply Hno, Exists_exists. exists f. split; [done |]. by apply same_file_key_iff.
Qed.

(** After an upsert every row stored under the key is the submitted one, up
    to its id, and there is such a row. *)
Lemma upsert_writes (r : session_file) (d d' : store) :
  upsert_session_file r d = inr d' ->
  (∃ f, f ∈ session_files d' ∧ file_key f = file_key r)
  ∧ (∀ f, f ∈ session_files d' -> file_key f = file_key r ->
          f_path f = f_path r ∧ f_uploaded_at f = f_uploaded_at r).
Proof.
  intros H. destruct (upsert_cases _ _ _ H) as [[Hex ->] | [Hno ->]].
  - split.
    + apply Exists_exists in Hex as (f & Hf & Hk).
      exists (overwrite r f). split; [by apply elem_of_map_2 |].
      rewrite file_key_overwrite. by apply same_file_key_iff.
    + intros f' Hf' Hk. apply elem_of_map_1 in Hf' as (f & Hf & <-).
      rewrite file_key_overwrite in Hk. unfold overwrite.
      rewrite decide_True by (by apply same_file_key_iff). done.
  - split.
    + exists r. split; [| done]. apply elem_of_app. right. by apply list_elem_of_singleton.
    + intros f Hf Hk. apply elem_of_app in Hf as [Hf | Hf].
      * destruct Hno. apply Exists_exists. exists f. split; [done |].
        by apply same_file_key_iff.
      * apply list_elem_of_singleton in Hf. by subst f.
Qed.

(** Rows stored under another key are not touched. *)
Lemma upsert_frame (r : session_file) (d d' : store) (g : session_file) :
  upsert_session_file r d = inr d' -> file_key g ≠ file_key r ->
  g ∈ session_files d' <-> g ∈ session_files d.
Proof.
  intros H Hk. destruct (upsert_cases _ _ _ H) as [[_ ->] | [_ ->]].
  - split.
    + intros Hg. apply elem_of_map_1 in Hg as (f & Hf & <-).
      rewrite file_key_overwrite in Hk. unfold overwrite.
      rewrite decide_False; [done |]. intros ?. by apply Hk, same_file_key_iff.
    + intros Hg. replace g with (overwrite r g); [by apply elem_of_map_2 |].
      unfold overwrite. rewrite decide_False; [done |].
      intros ?. by apply Hk, same_file_key_iff.
  - rewrite elem_of_app, list_elem_of_singleton. split; [| by left].
    intros [? | ->]; [done | by destruct Hk].
Qed.

Lemma add_session_file_db (session_id filename path : string) (w : world) :
  w_db (db.add_session_file session_id filename path w).2 = w_db w
  ∨ upsert_session_file (file_row session_id filename path w) (w_db w)
    = inr (w_db (db.add_session_file session_id filename path w).2).
Proof.
  rewrite add_session_file_unfold.
  destruct (upsert_session_file _ _) as [e|d] eqn:E; [by left | by right].
Qed.

Lemma add_session_files_unique (calls : list (string * string * string)) (w : world) :
  files_key_unique (w_db w) -> files_key_unique (w_db (add_session_files calls w)).
Proof.
  revert w. induction calls as [|[[sid fn] path] rest IH]; intros w Hnd; simpl; [done |].
  apply IH. destruct (add_session_file_db sid fn path w) as [-> | Hup]; [done |].
  by eapply upsert_keeps_unique.
Qed.

Lemma add_session_files_frame (calls : list (string * string * string)) (w : world)
    (g : session_file) :
  Forall (fun c => (c.1.1, c.1.2) ≠ file_key g) calls ->
  g ∈ session_files (w_db (add_session_files calls w)) <-> g ∈ session_files (w_db w).
Proof.
  revert w. induction calls as [|[[sid fn] path] rest IH]; intros w Hall; simpl; [done |].
  apply Forall_cons in Hall as [Hc Hall]. simpl in Hc.
  rewrite (IH _ Hall).
  destruct (add_session_file_db sid fn path w) as [-> | Hup]; [done |].
  apply (upsert_frame _ _ _ _ Hup). intros Heq. apply Hc. by rewrite Heq.
Qed.

Lemma elem_of_select_session_files (session_id : string) (d : store) (f : session_file) :
  f ∈ select_session_files session_id d <-> f ∈ session_files d ∧ f_session_id f = session_id.
Proof.
  unfold select_session_files. rewrite merge_sort_Permutation, list_elem_of_filter. tauto.
Qed.

Lemma NoDup_filenames_of_session (session_id : string) (l : list session_file) :
  NoDup (map file_key l) ->
  NoDup (map f_filename (filter (fun f => f_session_id f = session_id) l)).
Proof.
  induction l as [|f l IH]; simpl; intros Hnd; [constructor |].
  apply NoDup_cons in Hnd as [Hf Hnd].
  destruct (decide (f_session_id f = session_id)) as [Hs | Hs].
  - rewrite filter_cons_True by done. simpl. apply NoDup_cons. split; [| by apply IH].
    intros Hin. apply elem_of_map_1 in Hin as (g & Hg & Hname).
    apply list_elem_of_filter in Hg as [Hgs Hg].
    apply Hf. replace (file_key f) with (file_key g); [by apply elem_of_map_2 |].
    unfold file_key. by rewrite Hgs, Hs, Hname.
  - rewrite filter_cons_False by done. by apply IH.
Qed.

Lemma select_session_files_NoDup (session_id : string) (d : store) :
  files_key_unique d -> NoDup (map f_filename (select_session_files session_id d)).
Proof.
  intros Hnd. unfold select_session_files.
  assert (Hp : map f_filename
                 (merge_sort by_uploaded_at_asc
                    (filter (fun f => f_session_id f = session_id) (session_files d)))
               ≡ₚ map f_filename
                    (filter (fun f => f_session_id f = session_id) (session_files d))).
  { apply Permutation_map, merge_sort_Permutation. }
  rewrite Hp. by apply NoDup_filenames_of_session.
Qed.

(** C5. Starting from a table that satisfies UNIQUE(session_id, filename),
    as the empty table does, any run of [add_session_file] calls leaves at
    most one record per filename in every session's listing; and the record
    of a (session_id, filename) carries the path and the time of the last
    call made for it, whatever was recorded for it before and whatever is
    recorded for other names afterwards. *)
Theorem add_session_file_last_write_wins (earlier later : list (string * string * string))
    (session_id filename path : string) (w : world) :
  files_key_unique (w_db w) ->
  let w1 := add_session_files earlier w in
  let w2 := (db.add_session_file session_id filename path w1).2 in
  let w3 := add_session_files later w2 in
  (∀ sid, db.get_session_files sid w3 = (inr (select_session_files sid (w_db w3)), w3)
          ∧ NoDup (map f_filename (select_session_files sid (w_db w3))))
  ∧ ((db.add_session_file session_id filename path w1).1 = inr tt ->
     Forall (fun c => (c.1.1, c.1.2) ≠ (session_id, filename)) later ->
     ∃ f, f ∈ select_session_files session_id (w_db w3)
          ∧ f_filename f = filename
          ∧ f_path f = path
          ∧ f_uploaded_at f = w_clock w1 0%nat
          ∧ ∀ g, g ∈ select_session_files session_id (w_db w3) ->
                 f_filename g = filename -> g = f).
Proof.
  intros Hnd w1 w2 w3.
  assert (Hnd1 : files_key_unique (w_db w1)) by by apply add_session_files_unique.
  assert (Hnd2 : files_key_unique (w_db w2)).
  { subst w2. destruct (add_session_file_db session_id filename path w1) as [-> | Hup];
      [done | by eapply upsert_keeps_unique]. }
  assert (Hnd3 : files_key_unique (w_db w3)) by by apply add_session_files_unique.
  split.
  - intros sid. split; [reflexivity | by apply select_session_files_NoDup].
  - intros Hok Hlater.
    assert (Hup : upsert_session_file (file_row session_id filename path w1) (w_db w1)
                  = inr (w_db w2)).
    { subst w2. rewrite add_session_file_unfold in Hok |- *.
      destruct (upsert_session_file _ _) as [e|d]; [discriminate | done]. }
    destruct (upsert_writes _ _ _ Hup) as [(f & Hf & Hk) Hall].
    specialize (Hall f Hf Hk) as [Hpath Htime].
    unfold file_key in Hk. simpl in Hk. injection Hk as Hfs Hfn.
    assert (Hf3 : f ∈ session_files (w_db w3)).
    { apply add_session_files_frame; [| done].
      unfold file_key. by rewrite Hfs, Hfn. }
    exists f. split_and!; try done.
    + by apply elem_of_select_session_files.
    + intros g Hg Hgn.
      apply (NoDup_map_inj_on f_filename (select_session_files session_id (w_db w3)));
        [by apply select_session_files_NoDup | done | | congruence].
      by apply elem_of_select_session_files.
Qed.

(** ** Paths *)









Example name_of_traversal : Path_name (Path "../../etc/passwd") = "passwd".
Proof. reflexivity. Qed.

Example name_of_absolute : Path_name (Path "/etc/passwd") = "passwd".
Proof. reflexivity. Qed.

Example name_with_trailing_sep : Path_name (Path "docs//notes.txt/") = "notes.txt".
Proof. reflexivity. Qed.

Example name_of_dotdot : Path_name (Path "a/..") = "..".
Proof. reflexivity. Qed.

Example name_of_dot : Path_name (Path "./.") = "".
Proof. reflexivity. Qed.

Example name_of_root : Path_name (Path "/") = "".
Proof. reflexivity. Qed.

Example str_of_joined : Path_str (truediv (truediv UPLOAD_DIR "s1") "notes.txt")
                        = "uploads/s1/notes.txt".
Proof. reflexivity. Qed.

Example absolute_key_replaces : truediv UPLOAD_DIR "/etc/passwd" = mk_path "/" ["etc"; "passwd"].
Proof. reflexivity. Qed.

(** ** Path resolution *)








(** ** Upload *)













(** ** File context *)


(** C7. In the demo deployment the session has one recorded file of two
    bytes.  When the file can be read, the context is its label followed by
    its text.  When reading is denied, the record is still listed, but the
    context is not empty: the label, appended before the read was tried,
    stays behind. *)
Theorem unreadable_file_leaves_its_label :
  chat_file_context Demo.answers Demo.hello Demo.w_readable
    = file_label Demo.notes +:+ "hi"
  ∧ (db.get_session_files "s1" Demo.w_unreadable).1 = inr [Demo.notes]
  ∧ read_text (read_text_decode Demo.answers) Demo.unreadable_tree
      (Path (f_path Demo.notes)) = inl (PermissionError "uploads/s1/notes.txt")
  ∧ chat_file_context Demo.answers Demo.hello Demo.w_unreadable = file_label Demo.notes
  ∧ chat_file_context Demo.answers Demo.hello Demo.w_unreadable ≠ "".
Proof.
  split_and!; try (vm_compute; reflexivity).
  vm_compute. discriminate.
Qed.

(** ** The declared constraints hold in every store the handlers produce *)

Lemma NoDup_map_snoc {A B} (f : A -> B) (l : list A) (x : A) :
  NoDup (map f l) -> f x ∉ map f l -> NoDup (map f (l ++ [x])).
Proof.
  intros Hnd Hx. rewrite map_app. simpl. apply NoDup_app.
  split_and!; [done | | apply NoDup_singleton].
  intros y Hy Hy'. apply list_elem_of_singleton in Hy'. by subst y.
Qed.

Lemma NoDup_map_filter {A B} (f : A -> B) (Q : A -> Prop) `{∀ x, Decision (Q x)}
    (l : list A) :
  NoDup (map f l) -> NoDup (map f (filter Q l)).
Proof.
  induction l as [|a l IH]; simpl; intros Hnd; [constructor |].
  apply NoDup_cons in Hnd as [Ha Hnd].
  destruct (decide (Q a)).
  - rewrite filter_cons_True by done. simpl. apply NoDup_cons. split; [| by apply IH].
    intros Hin. apply Ha. apply elem_of_map_1 in Hin as (x & Hx & <-).
    apply elem_of_map_2. by apply list_elem_of_filter in Hx as [_ ?].
  - rewrite filter_cons_False by done. by apply IH.
Qed.

Lemma elem_of_map_snoc {A B} (f : A -> B) (l : list A) (x : A) (y : B) :
  y ∈ map f l -> y ∈ map f (l ++ [x]).
Proof. intros H. rewrite map_app. apply elem_of_app. by left. Qed.

Lemma insert_user_ok (r : user) (d d' : store) :
  insert_user r d = inr d' -> store_ok d -> store_ok d'.
Proof.
  unfold insert_user. intros H [].
  repeat case_decide; simplify_eq.
  constructor; simpl; auto using NoDup_map_snoc.
  intros s Hs. by apply elem_of_map_snoc, sessions_user_id_fkey0.
Qed.

Lemma insert_session_ok (r : session) (d d' : store) :
  insert_session r d = inr d' -> store_ok d -> store_ok d'.
Proof.
  unfold insert_session. intros H [].
  repeat case_decide; simplify_eq.
  constructor; simpl; auto using NoDup_map_snoc.
  - intros s Hs. apply elem_of_app in Hs as [Hs | Hs]; [auto |].
    apply list_elem_of_singleton in Hs. by subst s.
  - intros m Hm. by apply elem_of_map_snoc, messages_session_id_fkey0.
  - intros f Hf. by apply elem_of_map_snoc, session_files_session_id_fkey0.
Qed.

Lemma delete_session_stmt_ok (session_id : string) (d d' : store) :
  delete_session_stmt session_id d = inr d' -> store_ok d -> store_ok d'.
Proof.
  unfold delete_session_stmt. intros [= <-] [].
  constructor; simpl; auto using NoDup_map_filter.
  - intros s Hs. apply list_elem_of_filter in Hs as [_ Hs]. auto.
  - intros m Hm. apply list_elem_of_filter in Hm as [Hne Hm].
    apply messages_session_id_fkey0, elem_of_map_1 in Hm as (s & Hs & Hid).
    rewrite <- Hid. apply elem_of_map_2, list_elem_of_filter. split; [congruence | done].
  - intros m Hm. apply list_elem_of_filter in Hm as [_ Hm]. auto.
  - unfold files_key_unique in *. simpl. by apply NoDup_map_filter.
  - intros f Hf. apply list_elem_of_filter in Hf as [Hne Hf].
    apply session_files_session_id_fkey0, elem_of_map_1 in Hf as (s & Hs & Hid).
    rewrite <- Hid. apply elem_of_map_2, list_elem_of_filter. split; [congruence | done].
Qed.

Lemma map_s_user_id_touched now session_id l :
  map s_user_id (map (set_updated_at now session_id) l) = map s_user_id l.
Proof.
  rewrite map_map. apply map_ext. intros s. unfold set_updated_at. by case_decide.
Qed.

Lemma update_session_updated_at_ok (now : Z) (session_id : string) (d d' : store) :
  update_session_updated_at now session_id d = inr d' -> store_ok d -> store_ok d'.
Proof.
  unfold update_session_updated_at, touched. intros [= <-] [].
  constructor; simpl; rewrite ?map_s_id_touched; auto.
  intros s' Hs'. apply elem_of_map_1 in Hs' as (s & Hs & <-).
  rewrite (proj1 (proj2 (set_updated_at_fields now session_id s))). auto.
Qed.

Lemma insert_message_ok (r : message) (d d' : store) :
  insert_message r d = inr d' -> store_ok d -> store_ok d'.
Proof.
  intros H []. apply insert_message_inr in H as (Hrole & Hid & Hs & ->).
  constructor; simpl; auto using NoDup_map_snoc.
  - intros m Hm. apply elem_of_app in Hm as [Hm | Hm]; [auto |].
    apply list_elem_of_singleton in Hm. by subst m.
  - intros m Hm. apply elem_of_app in Hm as [Hm | Hm]; [auto |].
    apply list_elem_of_singleton in Hm. by subst m.
Qed.

Lemma upsert_session_file_ok (r : session_file) (d d' : store) :
  upsert_session_file r d = inr d' -> store_ok d -> store_ok d'.
Proof.
  intros H Hok. pose proof (upsert_keeps_unique _ _ _ H
                              (session_files_session_id_filename_key _ Hok)) as Hkey.
  destruct Hok. unfold upsert_session_file in H.
  repeat case_decide; simplify_eq; constructor; simpl; auto using NoDup_map_snoc.
  - rewrite map_map. erewrite map_ext; [exact session_files_pkey0 |].
    intros f. by case_decide.
  - intros f' Hf'. apply elem_of_map_1 in Hf' as (f & Hf & <-).
    case_decide; simpl; auto.
  - intros f Hf. apply elem_of_app in Hf as [Hf | Hf]; [auto |].
    apply list_elem_of_singleton in Hf. by subst f.
Qed.

Lemma delete_session_file_stmt_ok (session_id filename : string) (d d' : store) :
  delete_session_file_stmt session_id filename d = inr d' -> store_ok d -> store_ok d'.
Proof.
  unfold delete_session_file_stmt. intros [= <-] [].
  constructor; simpl; auto using NoDup_map_filter.
  - unfold files_key_unique in *. simpl. by apply NoDup_map_filter.
  - intros f Hf. apply list_elem_of_filter in Hf as [_ Hf]. auto.
Qed.

Create HintDb store_ok.
#[global] Hint Resolve insert_user_ok insert_session_ok delete_session_stmt_ok
  update_session_updated_at_ok insert_message_ok upsert_session_file_ok
  delete_session_file_stmt_ok : store_ok.

Lemma keeps_mret {A} (a : A) : keeps_store_ok (mret a).
Proof. by intros w Hw. Qed.

Lemma keeps_raise {A} (e : exn) : keeps_store_ok (@raise A e).
Proof. by intros w Hw. Qed.

Lemma keeps_mbind {A B} (m : M A) (k : A -> M B) :
  keeps_store_ok m -> (∀ a, keeps_store_ok (k a)) -> keeps_store_ok (m ≫= k).
Proof.
  intros Hm Hk w Hw. unfold mbind, M_bind, bind.
  specialize (Hm w Hw). destruct (m w) as [[e|a] w1]; [done |].
  by apply Hk.
Qed.

Lemma keeps_fetch {A} (query : store -> A) : keeps_store_ok (_fetch query).
Proof. by intros w Hw. Qed.

Lemma keeps_execute (stmt : store -> exn + store) :
  (∀ d d', stmt d = inr d' -> store_ok d -> store_ok d') -> keeps_store_ok (_execute stmt).
Proof.
  intros Hstmt w Hw. unfold _execute.
  destruct (stmt (w_db w)) as [e|d] eqn:E; [done |]. simpl. eauto.
Qed.

Lemma keeps_os (op : tree -> exn + tree) : keeps_store_ok (_os op).
Proof. intros w Hw. unfold _os. by destruct (op (w_fs w)). Qed.

Lemma keeps_uuid4_str : keeps_store_ok uuid4_str.
Proof. by intros w Hw. Qed.

Lemma keeps_clock_now : keeps_store_ok clock_now.
Proof. by intros w Hw. Qed.

Lemma keeps_get_fs : keeps_store_ok get_fs.
Proof. by intros w Hw. Qed.

Ltac keeps :=
  repeat first
    [ apply keeps_mret | apply keeps_raise | apply keeps_fetch | apply keeps_os
    | apply keeps_uuid4_str | apply keeps_clock_now | apply keeps_get_fs
    | apply keeps_execute; solve [eauto with store_ok]
    | apply keeps_mbind; [| intros ?]
    | match goal with
      | |- keeps_store_ok (match ?x with _ => _ end) => destruct x
      end ].

Lemma keeps_add_message (session_id role content : string) :
  keeps_store_ok (db.add_message session_id role content).
Proof. unfold db.add_message, db.touch_session, _uid, _now. keeps. Qed.

Lemma keeps_verify_user (api_key : string) : keeps_store_ok (verify_user api_key).
Proof. unfold verify_user, db.get_user_by_api_key. keeps. Qed.

Lemma keeps_generate (P : platform) (req : ChatRequest) (u : user)
    (history : list message) (file_context : string) :
  keeps_store_ok (generate P req u history file_context).
Proof.
  intros w Hw. rewrite generate_unfold. cbv zeta.
  destruct (outcome_of _); [done |].
  pose proof (keeps_add_message (chat_session_id req) "assistant"
                (join_chunks (chunks_of (stream_response P (chat_message req) history
                                           file_context (u_username u)))) w Hw) as H.
  by destruct (db.add_message _ _ _ w) as [[e|mid] w'].
Qed.

(** Every route leaves the declared constraints in force. *)
Lemma app_keeps_store_ok (P : platform) (r : request) : keeps_store_ok (app P r).
Proof.
  destruct r; simpl;
    unfold register, login, list_sessions, create_session, delete_session, get_messages,
      upload_file, list_session_files, delete_file, chat_stream, health;
    unfold db.create_user, db.get_user_by_username, db.get_user_by_credentials,
      db.create_session, db.get_session, db.get_user_sessions, db.delete_session,
      db.get_session_messages, db.add_session_file, db.get_session_files,
      db.remove_session_file, _uid, _now;
    repeat first
      [ apply keeps_verify_user | apply keeps_add_message | apply keeps_generate
      | progress keeps ].
Qed.

(** So does every sequence of requests, from the empty store in particular. *)
Lemma reachable_store_ok (P : platform) (w w' : world) :
  store_ok (w_db w) -> reachable P w w' -> store_ok (w_db w').
Proof.
  intros Hw Hr. induction Hr as [| w1 r _ IH]; [done |].
  by apply app_keeps_store_ok.
Qed.

Lemma empty_store_ok : store_ok empty_store.
Proof.
  constructor; unfold files_key_unique; simpl;
    first [apply NoDup_nil_2 | intros x Hx; by apply elem_of_nil in Hx].
Qed.

(** Whatever requests have been served since the store was empty, a session
    lists at most one record per file name. *)
Lemma reachable_one_record_per_filename (P : platform) (w w' : world) (session_id : string) :
  w_db w = empty_store -> reachable P w w' ->
  NoDup (map f_filename (select_session_files session_id (w_db w'))).
Proof.
  intros Hw Hr. apply select_session_files_NoDup.
  apply session_files_session_id_filename_key.
  apply (reachable_store_ok P w w'); [| done]. rewrite Hw. apply empty_store_ok.
Qed.

(** ** The theorems at work on the demo deployment *)

Ltac decide_closed := apply (bool_decide_unpack _); vm_compute; exact I.


Lemma absent_and_foreign_session_same_404_witness :
  let r := GET_session_messages "s3" "k1" in
  app Demo.answers r Demo.w_before_s3
    = (inl (HTTPException 404 "Session not found"), Demo.w_before_s3)
  ∧ app Demo.answers r Demo.w0 = (inl (HTTPException 404 "Session not found"), Demo.w0)
  ∧ (app Demo.answers r Demo.w_before_s3).1 = (app Demo.answers r Demo.w0).1.
Proof.
  apply (absent_and_foreign_session_same_404 Demo.answers (GET_session_messages "s3" "k1")
           "s3" "k1" Demo.w_before_s3 Demo.w0 Demo.alice Demo.alice Demo.s3);
    [reflexivity | reflexivity | reflexivity | reflexivity | reflexivity | decide_closed].
Defined.



Lemma add_message_touches_and_reorders_witness :
  let w' := (db.add_message "s1" "user" "hello" Demo.w0).2 in
  ∃ s' rest, select_user_sessions "u1" (w_db w') = s' :: rest ∧ s_id s' = "s1".
Proof.
  intros w'.
  destruct (add_message_touches_and_reorders "s1" "user" "hello" Demo.w0 w' "id0")
    as (_ & _ & _ & _ & Hfront); [reflexivity |].
  apply (Hfront "u1").
  - exists Demo.s1. split_and!; [| reflexivity | reflexivity]. decide_closed.
  - intros s Hin Hu Hne. simpl in Hin.
    apply elem_of_cons in Hin as [-> | Hin]; [by destruct Hne |].
    apply elem_of_cons in Hin as [-> | Hin]; [reflexivity |].
    apply elem_of_cons in Hin as [-> | Hin]; [discriminate Hu |].
    by apply elem_of_nil in Hin.
Defined.

Lemma add_session_file_last_write_wins_witness :
  let w3 :=
    add_session_files
      [("s1", "a.txt", "first/path"); ("s1", "a.txt", "second/path");
       ("s1", "b.txt", "other/path")] Demo.w0 in
  NoDup (map f_filename (select_session_files "s1" (w_db w3)))
  ∧ ∃ f, f ∈ select_session_files "s1" (w_db w3)
         ∧ f_filename f = "a.txt" ∧ f_path f = "second/path" ∧ f_uploaded_at f = 1001.
Proof.
  intros w3.
  destruct (add_session_file_last_write_wins
              [("s1", "a.txt", "first/path")] [("s1", "b.txt", "other/path")]
              "s1" "a.txt" "second/path" Demo.w0) as [Hall Hlast].
  { unfold files_key_unique. simpl. constructor. }
  cbv zeta in Hlast.
  split; [exact (proj2 (Hall "s1")) |].
  destruct Hlast as (f & Hin & Hn & Hp & Ht & _).
  - reflexivity.
  - constructor; [simpl; congruence | constructor].
  - exists f. split_and!; [exact Hin | exact Hn | exact Hp | exact Ht].
Defined.

Lemma chat_stream_generation_error_witness :
  ∃ frames w',
    chat_stream Demo.fails Demo.hello Demo.w0 = (inr (StreamingResponse frames), w')
    ∧ map fst frames = [mk_event "token" "Hel"; mk_event "error" "model unavailable"]
    ∧ messages (w_db w') = [mk_message "id0" "s1" "user" "hello" 1000].
Proof.
  destruct (chat_stream_generation_error Demo.fails Demo.hello Demo.w0
              (db.add_message "s1" "user" "hello" Demo.w0).2
              Demo.alice Demo.s1 "id0" (AgentException "model unavailable"))
    as (frames & w' & H1 & H2 & H3 & _);
    [reflexivity | reflexivity | reflexivity | reflexivity | by left |].
  exists frames, w'. split; [exact H1 |]. split; [exact H2 | exact H3].
Defined.


Lemma rejected_request_writes_nothing_witness :
  let w' := (app Demo.answers (POST_session_upload "s3" "k1"
                                 (mk_UploadFile "a.txt" Demo.hi)) Demo.w0).2 in
  w_db w' = w_db Demo.w0 ∧ w_fs w' = w_fs Demo.w0.
Proof.
  intros w'.
  apply (rejected_request_writes_nothing Demo.answers
           (POST_session_upload "s3" "k1" (mk_UploadFile "a.txt" Demo.hi))
           Demo.w0 w' 404 "Session not found");
    [reflexivity | by right].
Defined.

(** * Further properties of the data-access layer and the handlers *)

(** ** Users *)



Lemma find_snoc_fresh {A} (f : A -> bool) (l : list A) (x : A) :
  (∀ y, y ∈ l -> f y = false) -> f x = true -> find f (l ++ [x]) = Some x.
Proof.
  induction l as [|a l IH]; simpl; intros Hl Hx.
  - by rewrite Hx.
  - rewrite (Hl a) by (apply elem_of_cons; by left).
    apply IH; [| done]. intros y Hy. apply Hl, elem_of_cons. by right.
Qed.

Lemma find_None_all {A} (f : A -> bool) (l : list A) :
  (∀ y, y ∈ l -> f y = false) -> find f l = None.
Proof.
  induction l as [|a l IH]; simpl; intros Hl; [done |].
  rewrite (Hl a) by (apply elem_of_cons; by left).
  apply IH. intros y Hy. apply Hl, elem_of_cons. by right.
Qed.




(** ** Messages *)


(** ** Routes that only read *)

(** X4. Logging in, listing sessions, reading messages, listing files and
    the health check leave the world exactly as it was, whatever they answer. *)
Theorem read_only_routes_change_nothing (P : platform) (r : request) (w : world) :
  read_only r = true -> (app P r w).2 = w.
Proof.
  intros Hr. destruct r; simpl in Hr; try discriminate; simpl.
  - rewrite login_unfold. by destruct (select_user_by_credentials _ _ _).
  - unfold list_sessions. unfold mbind at 1, M_bind at 1, bind at 1.
    rewrite verify_user_unfold. by destruct (select_user_by_api_key _ _).
  - unfold get_messages. unfold mbind at 1, M_bind at 1, bind at 1.
    rewrite verify_user_unfold. destruct (select_user_by_api_key _ _); [| done].
    unfold db.get_session, db.get_session_messages. unfold_M.
    by destruct (not_owned _ _).
  - unfold list_session_files. unfold mbind at 1, M_bind at 1, bind at 1.
    rewrite verify_user_unfold. destruct (select_user_by_api_key _ _); [| done].
    unfold db.get_session, db.get_session_files. unfold_M.
    by destruct (not_owned _ _).
  - reflexivity.
Qed.

(** ** The shape of every stream *)

(** X5. Whatever the agent does and whatever the store holds, [generate]
    returns; its frames are one token frame per chunk received, in order,
    followed by exactly one last frame, which is a done frame or an error
    frame; a done frame carries the concatenation of the chunks, and an
    error frame leaves the messages as they were. *)
Theorem stream_is_tokens_then_one_terminal (P : platform) (req : ChatRequest) (u : user)
    (history : list message) (file_context : string) (w : world) :
  let run := stream_response P (chat_message req) history file_context (u_username u) in
  ∃ (last_frame : frame) (w' : world),
    generate P req u history file_context w
      = (inr (map (fun chunk => (mk_event "token" chunk, w_db w)) (chunks_of run)
              ++ [last_frame]), w')
    ∧ last_frame.2 = w_db w'
    ∧ ((ev_type last_frame.1 = "done"
        ∧ ev_content last_frame.1 = join_chunks (chunks_of run)
        ∧ outcome_of run = None
        ∧ ∃ m, messages (w_db w') = messages (w_db w) ++ [m]
               ∧ m_role m = "assistant" ∧ m_content m = join_chunks (chunks_of run)
               ∧ m_session_id m = chat_session_id req)
       ∨ (ev_type last_frame.1 = "error" ∧ messages (w_db w') = messages (w_db w))).
Proof.
  intros run. rewrite generate_unfold. fold run. cbv zeta.
  destruct (outcome_of run) as [e|] eqn:Hout.
  - eexists _, w. split; [reflexivity |]. split; [done |]. right. done.
  - destruct (db.add_message _ _ _ w) as [[e|mid] w'] eqn:Hadd.
    + eexists _, w'. split; [reflexivity |]. split; [done |]. right. split; [done |].
      rewrite add_message_unfold in Hadd.
      destruct (insert_message _ _) as [e'|d']; [| done]. by simplify_eq.
    + eexists _, w'. split; [reflexivity |]. split; [done |]. left.
      pose proof (add_message_saved _ _ _ _ _ _ Hadd) as (_ & _ & _ & ->).
      split_and!; try done. eexists. split; [reflexivity |]. done.
Qed.

(** ** Constraints *)

(** X6. Every route, whether it returns or raises, leaves a store that
    satisfies all the constraints of the schema (primary keys, the UNIQUE
    columns, the foreign keys and the role check) if the store it started
    from did; hence so does any sequence of requests served from an empty
    store. *)
Theorem every_route_keeps_the_constraints (P : platform) (w : world) :
  store_ok (w_db w) ->
  (∀ r, store_ok (w_db (app P r w).2))
  ∧ (∀ w', reachable P w w' -> store_ok (w_db w')).
Proof.
  intros Hw. split.
  - intros r. by apply app_keeps_store_ok.
  - intros w' Hr. by apply (reachable_store_ok P w w').
Qed.

(** ** Deleting a session *)

Lemma rmtree_lookup (t : tree) (kd k : list string) :
  filter (fun kv : list string * node => ¬ kd `prefix_of` kv.1) t !! k
  = if decide (kd `prefix_of` k) then None else t !! k.
Proof.
  case_decide as Hp.
  - apply map_lookup_filter_None_2. right. intros x _ Hn. by apply Hn.
  - destruct (t !! k) as [x|] eqn:E.
    + by apply map_lookup_filter_Some_2.
    + apply map_lookup_filter_None_2. by left.
Qed.

Lemma delete_session_authorized (session_id api_key : string) (w : world) (u : user) :
  select_user_by_api_key api_key (w_db w) = Some u ->
  not_owned (select_session session_id (w_db w)) u = false ->
  let dir := truediv UPLOAD_DIR session_id in
  let d' := mk_store (users (w_db w))
              (filter (fun s => s_id s ≠ session_id) (sessions (w_db w)))
              (filter (fun m => m_session_id m ≠ session_id) (messages (w_db w)))
              (filter (fun f => f_session_id f ≠ session_id) (session_files (w_db w))) in
  let w1 := mk_world d' (w_fs w) (w_uuid4 w) (w_clock w) in
  delete_session session_id api_key w =
  if Path_exists (w_fs w) dir then
    match rmtree dir (w_fs w) with
    | inl e => (inl e, w1)
    | inr t => (inr (Message "Session deleted"), with_fs t w1)
    end
  else (inr (Message "Session deleted"), w1).
Proof.
  intros Hu Hn dir d' w1. unfold delete_session.
  unfold mbind at 1, M_bind at 1, bind at 1. rewrite verify_user_unfold, Hu.
  unfold db.get_session. unfold mbind at 1, M_bind at 1, bind at 1, _fetch. rewrite Hn.
  unfold db.delete_session, delete_session_stmt. unfold_M. simpl.
  fold dir. fold d'. fold w1.
  destruct (Path_exists (w_fs w) dir); [| done]. simpl.
  by destruct (rmtree dir (w_fs w)).
Qed.

(** X7. Deleting an owned session removes its row, its messages and its file
    records and no other row, even when removing the upload directory then
    fails; afterwards every route that names the session answers 404.  When
    the session has no upload directory the handler returns and the file
    tree is untouched; when it has one, the handler returns and the directory
    and everything below it are gone, nothing else. *)
Theorem delete_session_cascades (P : platform) (session_id api_key : string)
    (w : world) (u : user) (s : session) :
  select_user_by_api_key api_key (w_db w) = Some u ->
  select_session session_id (w_db w) = Some s ->
  s_user_id s = u_id u ->
  let dir := truediv UPLOAD_DIR session_id in
  let result := delete_session session_id api_key w in
  let d := w_db w in
  let d' := w_db result.2 in
  users d' = users d
  ∧ (∀ x, x ∈ sessions d' <-> x ∈ sessions d ∧ s_id x ≠ session_id)
  ∧ (∀ m, m ∈ messages d' <-> m ∈ messages d ∧ m_session_id m ≠ session_id)
  ∧ (∀ f, f ∈ session_files d' <-> f ∈ session_files d ∧ f_session_id f ≠ session_id)
  ∧ (∀ r, session_scoped r = Some (session_id, api_key) ->
          app P r result.2 = (inl (HTTPException 404 "Session not found"), result.2))
  ∧ (Path_exists (w_fs w) dir = false ->
     result.1 = inr (Message "Session deleted") ∧ w_fs result.2 = w_fs w)
  ∧ (∀ kd, locate (w_fs w) dir = Some kd -> is_dir (w_fs w) kd = true ->
       result.1 = inr (Message "Session deleted")
       ∧ ∀ k, w_fs result.2 !! k
              = if decide (kd `prefix_of` k) then None else w_fs w !! k).
Proof.
  intros Hu Hs Hown dir result d d'.
  assert (Hres : result = delete_session session_id api_key w) by done.
  rewrite (delete_session_authorized session_id api_key w u Hu
             (not_owned_false _ _ _ Hs Hown)) in Hres.
  fold dir in Hres. cbv zeta in Hres.
  set (d1 := mk_store (users (w_db w))
               (filter (fun s => s_id s ≠ session_id) (sessions (w_db w)))
               (filter (fun m => m_session_id m ≠ session_id) (messages (w_db w)))
               (filter (fun f => f_session_id f ≠ session_id) (session_files (w_db w))))
    in Hres.
  assert (Hd' : d' = d1).
  { subst d'. rewrite Hres. destruct (Path_exists _ _); [| done].
    by destruct (rmtree _ _). }
  clearbody result d'. subst d'.
  split_and!.
  - done.
  - intros x. simpl. rewrite list_elem_of_filter. tauto.
  - intros m. simpl. rewrite list_elem_of_filter. tauto.
  - intros f. simpl. rewrite list_elem_of_filter. tauto.
  - intros r Hr.
    assert (Hdb : w_db result.2 = d1).
    { rewrite Hres. destruct (Path_exists _ _); [| done]. by destruct (rmtree _ _). }
    apply (session_scoped_guard P r session_id api_key result.2 u Hr).
    + by rewrite Hdb.
    + rewrite Hdb. unfold select_session. simpl.
      rewrite find_None_all; [done |].
      intros y Hy. apply list_elem_of_filter in Hy as [Hne _].
      by apply bool_decide_eq_false_2.
  - intros Hex. rewrite Hres, Hex. done.
  - intros kd Hl Hd. rewrite Hres.
    unfold Path_exists, rmtree. rewrite Hl.
    assert (Hex : is_anchor kd || bool_decide (is_Some (w_fs w !! kd)) = true).
    { unfold is_dir in Hd. apply orb_true_iff in Hd as [-> | Hd]; [done |].
      apply orb_true_iff. right. apply bool_decide_eq_true_2.
      destruct (w_fs w !! kd); [by eexists | done]. }
    rewrite Hex, Hd. simpl. split; [done |]. intros k. apply rmtree_lookup.
Qed.

(** ** Creating a session *)

Lemma filter_none {A} (Q : A -> Prop) `{∀ x, Decision (Q x)} (l : list A) :
  (∀ x, x ∈ l -> ¬ Q x) -> filter Q l = [].
Proof.
  induction l as [|a l IH]; intros Hl; [done |].
  rewrite filter_cons_False by (apply Hl, elem_of_cons; by left).
  apply IH. intros x Hx. apply Hl, elem_of_cons. by right.
Qed.

Lemma select_user_by_api_key_Some (api_key : string) (d : store) (u : user) :
  select_user_by_api_key api_key d = Some u -> u ∈ users d ∧ u_api_key u = api_key.
Proof.
  intros H. apply find_Some_elem in H as [Hin Hf].
  by apply bool_decide_eq_true in Hf.
Qed.

Lemma create_session_stores (P : platform) (req : SessionCreate) (api_key : string)
    (w : world) (u : user) (d1 : store) :
  let named := match sc_name req with
               | Some n => bool_decide (n ≠ "")
               | None => false
               end in
  let name := if named then default "" (sc_name req)
              else "Session " +:+ strftime_b_d_HM P (w_clock w 0%nat) in
  let created := if named then w_clock w 0%nat else w_clock w 1%nat in
  select_user_by_api_key api_key (w_db w) = Some u ->
  insert_session (mk_session (w_uuid4 w 0%nat) (u_id u) name created created) (w_db w)
    = inr d1 ->
  ∃ w1, create_session P req api_key w = (inr (SessionCreated (w_uuid4 w 0%nat) name), w1)
        ∧ w_db w1 = d1.
Proof.
  intros named name created Hu Hins. subst named name created.
  unfold create_session. unfold mbind at 1, M_bind at 1, bind at 1.
  rewrite verify_user_unfold, Hu.
  unfold db.create_session. unfold_M.
  destruct (sc_name req) as [n|]; simpl in *.
  - destruct (decide (n = "")) as [He | He]; simpl.
    + rewrite bool_decide_eq_false_2 in Hins |- * by (intros Hx; by apply Hx).
      rewrite Hins. by eexists.
    + rewrite bool_decide_eq_true_2 in Hins |- * by done.
      rewrite Hins. by eexists.
  - rewrite Hins. by eexists.
Qed.

(** X8. With a valid key and an unused generated id, [create_session]
    returns that id and the name it stored: the submitted name, or, when none
    or an empty one was submitted, "Session " followed by the formatted
    current time.  The new session belongs to the requester, its two
    timestamps are equal, it appears in the requester's next listing, which
    holds only the requester's sessions, and it starts with no messages and
    no files. *)
Theorem create_session_then_listed (P : platform) (req : SessionCreate)
    (api_key : string) (w : world) (u : user) :
  let named := match sc_name req with
               | Some n => bool_decide (n ≠ "")
               | None => false
               end in
  let name := if named then default "" (sc_name req)
              else "Session " +:+ strftime_b_d_HM P (w_clock w 0%nat) in
  let created := if named then w_clock w 0%nat else w_clock w 1%nat in
  let sid := w_uuid4 w 0%nat in
  let new := mk_session sid (u_id u) name created created in
  select_user_by_api_key api_key (w_db w) = Some u ->
  store_ok (w_db w) ->
  sid ∉ map s_id (sessions (w_db w)) ->
  ∃ w1,
    create_session P req api_key w = (inr (SessionCreated sid name), w1)
    ∧ sessions (w_db w1) = sessions (w_db w) ++ [new]
    ∧ (∃ rows, list_sessions api_key w1 = (inr (SessionList rows), w1)
               ∧ new ∈ rows ∧ ∀ x, x ∈ rows -> s_user_id x = u_id u)
    ∧ get_messages sid api_key w1 = (inr (MessageList []), w1)
    ∧ list_session_files sid api_key w1 = (inr (FileList []), w1).
Proof.
  intros named name created sid new Hu Hok Hsid.
  pose proof (select_user_by_api_key_Some _ _ _ Hu) as [Huin _].
  assert (Hfk : u_id u ∈ map u_id (users (w_db w))) by by apply elem_of_map_2.
  set (d1 := mk_store (users (w_db w)) (sessions (w_db w) ++ [new]) (messages (w_db w))
               (session_files (w_db w))).
  assert (Hins : insert_session new (w_db w) = inr d1).
  { unfold insert_session. simpl.
    by rewrite (decide_False _ _ Hsid), (decide_True _ _ Hfk). }
  assert (Hcreate : ∃ w1, create_session P req api_key w = (inr (SessionCreated sid name), w1)
                          ∧ w_db w1 = d1).
  { by apply (create_session_stores P req api_key w u d1). }
  destruct Hcreate as (w1 & Hcreate & Hdb). exists w1.
  assert (Hu1 : select_user_by_api_key api_key (w_db w1) = Some u) by by rewrite Hdb.
  assert (Hs1 : select_session sid (w_db w1) = Some new).
  { rewrite Hdb. unfold select_session. simpl. apply find_snoc_fresh.
    - intros y Hy. apply bool_decide_eq_false_2. intros Heq. apply Hsid.
      rewrite <- Heq. by apply elem_of_map_2.
    - simpl. by apply bool_decide_eq_true_2. }
  assert (Hown : not_owned (select_session sid (w_db w1)) u = false).
  { by apply (not_owned_false _ _ new). }
  split_and!.
  - exact Hcreate.
  - by rewrite Hdb.
  - exists (select_user_sessions (u_id u) (w_db w1)). split_and!.
    + unfold list_sessions. unfold mbind at 1, M_bind at 1, bind at 1.
      by rewrite verify_user_unfold, Hu1.
    + rewrite select_user_sessions_perm, Hdb. simpl.
      apply list_elem_of_filter. split; [done |].
      apply elem_of_app. right. by apply list_elem_of_singleton.
    + intros x Hx. rewrite select_user_sessions_perm in Hx.
      by apply list_elem_of_filter in Hx as [? _].
  - unfold get_messages. unfold mbind at 1, M_bind at 1, bind at 1.
    rewrite verify_user_unfold, Hu1.
    unfold db.get_session, db.get_session_messages. unfold_M. rewrite Hown.
    unfold select_session_messages. rewrite Hdb. simpl.
    rewrite filter_none; [done |].
    intros m Hm Heq. apply Hsid. rewrite <- Heq.
    by apply (messages_session_id_fkey _ Hok).
  - unfold list_session_files. unfold mbind at 1, M_bind at 1, bind at 1.
    rewrite verify_user_unfold, Hu1.
    unfold db.get_session, db.get_session_files. unfold_M. rewrite Hown.
    unfold select_session_files. rewrite Hdb. simpl.
    rewrite filter_none; [done |].
    intros f Hf Heq. apply Hsid. rewrite <- Heq.
    by apply (session_files_session_id_fkey _ Hok).
Qed.

(** ** Listings *)

(** X9. For an owned session, [get_messages] returns exactly the messages
    of that session, oldest [created_at] first, and [list_session_files]
    exactly its file records, oldest [uploaded_at] first; each row once per
    time it is stored, and no row of another session. *)
Theorem listings_sorted_and_scoped (session_id api_key : string) (w : world)
    (u : user) (s : session) :
  select_user_by_api_key api_key (w_db w) = Some u ->
  select_session session_id (w_db w) = Some s ->
  s_user_id s = u_id u ->
  ∃ ms fs,
    get_messages session_id api_key w = (inr (MessageList ms), w)
    ∧ Sorted by_created_at_asc ms
    ∧ ms ≡ₚ filter (fun m => m_session_id m = session_id) (messages (w_db w))
    ∧ list_session_files session_id api_key w = (inr (FileList fs), w)
    ∧ Sorted by_uploaded_at_asc fs
    ∧ fs ≡ₚ filter (fun f => f_session_id f = session_id) (session_files (w_db w)).
Proof.
  intros Hu Hs Hown.
  pose proof (not_owned_false _ _ _ Hs Hown) as Hn.
  exists (select_session_messages session_id (w_db w)),
         (select_session_files session_id (w_db w)).
  split_and!.
  - unfold get_messages. unfold mbind at 1, M_bind at 1, bind at 1.
    rewrite verify_user_unfold, Hu.
    unfold db.get_session, db.get_session_messages. unfold_M. by rewrite Hn.
  - apply Sorted_merge_sort; apply _.
  - apply merge_sort_Permutation.
  - unfold list_session_files. unfold mbind at 1, M_bind at 1, bind at 1.
    rewrite verify_user_unfold, Hu.
    unfold db.get_session, db.get_session_files. unfold_M. by rewrite Hn.
  - apply Sorted_merge_sort; apply _.
  - apply merge_sort_Permutation.
Qed.

(** ** Deleting a file *)

Lemma delete_file_authorized (session_id filename api_key : string) (w : world) (u : user) :
  select_user_by_api_key api_key (w_db w) = Some u ->
  not_owned (select_session session_id (w_db w)) u = false ->
  let file_path := truediv (truediv UPLOAD_DIR session_id) filename in
  let d' := without_file session_id filename (w_db w) in
  delete_file session_id filename api_key w =
  if Path_exists (w_fs w) file_path then
    match unlink file_path (w_fs w) with
    | inl e => (inl e, w)
    | inr t => (inr (Message "File removed"), mk_world d' t (w_uuid4 w) (w_clock w))
    end
  else (inr (Message "File removed"), mk_world d' (w_fs w) (w_uuid4 w) (w_clock w)).
Proof.
  intros Hu Hn file_path d'. unfold delete_file.
  unfold mbind at 1, M_bind at 1, bind at 1. rewrite verify_user_unfold, Hu.
  unfold db.get_session. unfold mbind at 1, M_bind at 1, bind at 1, _fetch. rewrite Hn.
  unfold db.remove_session_file, delete_session_file_stmt. unfold_M. simpl.
  fold file_path. fold (without_file session_id filename (w_db w)). fold d'.
  destruct (Path_exists (w_fs w) file_path); [| done]. simpl.
  by destruct (unlink file_path (w_fs w)).
Qed.

(** X10. Removing a file from an owned session.  When nothing is found at
    [uploads/<session_id>/<filename>] the handler still returns and removes
    the record; when a regular file is found it is removed from the tree,
    and only it, together with the record.  In both cases no other record
    and no other table changes.  When the path names a directory the
    handler raises, and neither the tree nor the record is touched. *)
Theorem delete_file_removes (session_id filename api_key : string) (w : world)
    (u : user) (s : session) :
  select_user_by_api_key api_key (w_db w) = Some u ->
  select_session session_id (w_db w) = Some s ->
  s_user_id s = u_id u ->
  let file_path := truediv (truediv UPLOAD_DIR session_id) filename in
  let result := delete_file session_id filename api_key w in
  let removed (d' : store) :=
    users d' = users (w_db w) ∧ sessions d' = sessions (w_db w)
    ∧ messages d' = messages (w_db w)
    ∧ ∀ f, f ∈ session_files d' <->
           f ∈ session_files (w_db w)
           ∧ ¬ (f_session_id f = session_id ∧ f_filename f = filename) in
  (Path_exists (w_fs w) file_path = false ->
     result.1 = inr (Message "File removed") ∧ w_fs result.2 = w_fs w
     ∧ removed (w_db result.2))
  ∧ (∀ k data r, locate (w_fs w) file_path = Some k ->
       w_fs w !! k = Some (RegularFile data r) -> is_dir (w_fs w) k = false ->
       result.1 = inr (Message "File removed") ∧ w_fs result.2 = delete k (w_fs w)
       ∧ removed (w_db result.2))
  ∧ (∀ k, locate (w_fs w) file_path = Some k -> is_dir (w_fs w) k = true ->
       result = (inl (IsADirectoryError (Path_str file_path)), w)).
Proof.
  intros Hu Hs Hown file_path result removed.
  assert (Hres : result = delete_file session_id filename api_key w) by done.
  rewrite (delete_file_authorized session_id filename api_key w u Hu
             (not_owned_false _ _ _ Hs Hown)) in Hres.
  fold file_path in Hres. cbv zeta in Hres. clearbody result.
  assert (Hrem : removed (without_file session_id filename (w_db w))).
  { subst removed. simpl. split_and!; try done.
    intros f. rewrite list_elem_of_filter. tauto. }
  split_and!.
  - intros Hex. rewrite Hex in Hres. subst result. simpl. done.
  - intros k data r Hl Hk Hd.
    unfold Path_exists, unlink in Hres. rewrite Hl, Hk, Hd in Hres.
    rewrite bool_decide_eq_true_2, orb_true_r in Hres by by eexists.
    subst result. simpl. done.
  - intros k Hl Hd.
    unfold Path_exists, unlink in Hres. rewrite Hl, Hd in Hres.
    assert (Hex : is_anchor k || bool_decide (is_Some (w_fs w !! k)) = true).
    { unfold is_dir in Hd. apply orb_true_iff in Hd as [-> | Hd]; [done |].
      apply orb_true_iff. right. apply bool_decide_eq_true_2.
      destruct (w_fs w !! k); [by eexists | done]. }
    by rewrite Hex in Hres.
Qed.

(** ** Uploads, once more *)






Lemma upsert_other_tables (r : session_file) (d d1 : store) :
  upsert_session_file r d = inr d1 ->
  users d1 = users d ∧ sessions d1 = sessions d ∧ messages d1 = messages d.
Proof.
  unfold upsert_session_file. intros H. by repeat case_decide; simplify_eq.
Qed.


(** ** From an upload to the chat context *)




Lemma filter_all {A} (Q : A -> Prop) `{∀ x, Decision (Q x)} (l : list A) :
  Forall Q l -> filter Q l = l.
Proof.
  induction 1 as [|x l Hx Hl IH]; [done |].
  rewrite filter_cons_True by done. by rewrite IH.
Qed.




(** ** What an upload and a chat turn leave alone *)

Lemma upload_file_db (session_id api_key : string) (file : UploadFile) (w : world) :
  let name := Path_name (Path (upload_filename file)) in
  let path := Path_str (truediv (truediv UPLOAD_DIR session_id) name) in
  let result := upload_file session_id api_key file w in
  w_db result.2 = w_db w
  ∨ upsert_session_file (file_row session_id name path w) (w_db w) = inr (w_db result.2).
Proof.
  intros name path result.
  assert (Hres : result = upload_file session_id api_key file w) by done.
  clearbody result. unfold upload_file in Hres.
  unfold mbind at 1, M_bind at 1, bind at 1 in Hres. rewrite verify_user_unfold in Hres.
  destruct (select_user_by_api_key api_key (w_db w)) as [u|] eqn:Hu;
    [| subst result; by left].
  unfold db.get_session in Hres.
  unfold mbind at 1, M_bind at 1, bind at 1, _fetch in Hres.
  destruct (not_owned _ u) eqn:Hn; [subst result; by left |].
  fold name in Hres.
  unfold mbind, M_bind, bind, _os, mret, M_ret, ret in Hres. simpl in Hres.
  destruct (mkdir_exist_ok _ (w_fs w)) as [e|t1]; [subst result; by left |].
  simpl in Hres.
  destruct (write_bytes _ _ t1) as [e|t2]; [subst result; by left |]. simpl in Hres.
  rewrite add_session_file_unfold in Hres. simpl in Hres.
  destruct (upsert_session_file _ _) as [e|d1] eqn:E; subst result; [by left |].
  right. simpl. first [reflexivity | exact E].
Qed.

Lemma filter_overwrite_other (sid' : string) (r : session_file) (l : list session_file) :
  f_session_id r ≠ sid' ->
  filter (fun f => f_session_id f = sid') (map (overwrite r) l)
  = filter (fun f => f_session_id f = sid') l.
Proof.
  intros Hr. induction l as [|f l IH]; [done |]. simpl.
  unfold overwrite at 1. case_decide as Hk.
  - destruct Hk as [Hs _].
    rewrite filter_cons_False by (simpl; congruence).
    rewrite filter_cons_False by congruence. exact IH.
  - destruct (decide (f_session_id f = sid')).
    + rewrite !filter_cons_True by done. by rewrite IH.
    + rewrite !filter_cons_False by done. exact IH.
Qed.

(** X13. Whatever an upload request answers, it changes no user, session or
    message row, and in the file table nothing but the record of the
    (session, base name) it names: every other record is kept as it is, and
    the file listing of every other session is the same as before. *)
Theorem upload_touches_one_record (session_id api_key : string) (file : UploadFile)
    (w : world) :
  let name := Path_name (Path (upload_filename file)) in
  let d := w_db w in
  let d' := w_db (upload_file session_id api_key file w).2 in
  users d' = users d ∧ sessions d' = sessions d ∧ messages d' = messages d
  ∧ (∀ g, file_key g ≠ (session_id, name) ->
          g ∈ session_files d' <-> g ∈ session_files d)
  ∧ (∀ sid', sid' ≠ session_id ->
             select_session_files sid' d' = select_session_files sid' d).
Proof.
  intros name d d'.
  destruct (upload_file_db session_id api_key file w) as [Hsame | Hups].
  - fold d d' in Hsame. rewrite Hsame. by split_and!.
  - fold name d d' in Hups.
    destruct (upsert_other_tables _ _ _ Hups) as (Hu & Hs & Hm).
    split_and!; try done.
    + intros g Hg. by apply (upsert_frame _ _ _ _ Hups).
    + intros sid' Hne. unfold select_session_files. f_equal.
      destruct (upsert_cases _ _ _ Hups) as [[_ ->] | [_ ->]].
      * apply filter_overwrite_other. simpl. congruence.
      * rewrite filter_app, filter_cons_False by (simpl; congruence).
        by rewrite filter_nil, app_nil_r.
Qed.

Lemma turn_writes_refl (session_id : string) (w : world) : turn_writes session_id w w.
Proof.
  unfold turn_writes. split_and!; try done.
  exists []. by rewrite app_nil_r.
Qed.

Lemma turn_writes_trans (session_id : string) (w1 w2 w3 : world) :
  turn_writes session_id w1 w2 -> turn_writes session_id w2 w3 ->
  turn_writes session_id w1 w3.
Proof.
  intros (A1 & A2 & A3 & (e1 & A4 & A5) & A6) (B1 & B2 & B3 & (e2 & B4 & B5) & B6).
  unfold turn_writes. split_and!; try congruence.
  - exists (e1 ++ e2). split; [by rewrite B4, A4, app_assoc | by apply Forall_app].
  - intros x Hx. by rewrite (B6 x Hx), (A6 x Hx).
Qed.

Lemma add_message_turn_writes (session_id role content : string) (w : world) :
  turn_writes session_id w (db.add_message session_id role content w).2.
Proof.
  rewrite add_message_unfold.
  destruct (insert_message _ _) as [e|d] eqn:E.
  - unfold turn_writes. simpl. split_and!; try done. exists []. by rewrite app_nil_r.
  - apply insert_message_inr in E as (_ & _ & _ & ->).
    unfold turn_writes. simpl. split_and!; try done.
    + eexists. split; [reflexivity |]. by repeat constructor.
    + intros x Hx. split.
      * intros Hin. apply elem_of_map_1 in Hin as (y & Hy & <-).
        destruct (set_updated_at_fields (w_clock w 1%nat) session_id y) as (E1 & _ & _).
        rewrite E1 in Hx. unfold set_updated_at. by rewrite decide_False.
      * intros Hin. replace x with (set_updated_at (w_clock w 1%nat) session_id x).
        -- by apply elem_of_map_2.
        -- unfold set_updated_at. by rewrite decide_False.
Qed.

(** X14. Whatever a chat request answers, it writes no file and changes no
    user and no file record; it never removes or rewrites a stored message,
    the messages it adds all belong to the session of the request, so the
    message list of every other session is the same as before, and no other
    session row changes. *)
Theorem chat_turn_stays_in_its_session (P : platform) (req : ChatRequest) (w : world) :
  let d := w_db w in
  let w' := (chat_stream P req w).2 in
  let d' := w_db w' in
  users d' = users d ∧ session_files d' = session_files d ∧ w_fs w' = w_fs w
  ∧ (∃ extra, messages d' = messages d ++ extra
              ∧ Forall (fun m => m_session_id m = chat_session_id req) extra)
  ∧ (∀ sid', sid' ≠ chat_session_id req ->
             select_session_messages sid' d' = select_session_messages sid' d)
  ∧ (∀ x, s_id x ≠ chat_session_id req -> x ∈ sessions d' <-> x ∈ sessions d).
Proof.
  intros d w' d'.
  assert (H : turn_writes (chat_session_id req) w w').
  { subst w'. unfold chat_stream.
    unfold mbind at 1, M_bind at 1, bind at 1. rewrite verify_user_unfold.
    destruct (select_user_by_api_key _ _) as [u|]; [| apply turn_writes_refl].
    unfold db.get_session, db.get_session_messages, db.get_session_files.
    unfold mbind, M_bind, bind, _fetch, get_fs, mret, M_ret, ret, raise.
    destruct (not_owned _ _); [apply turn_writes_refl |].
    pose proof (add_message_turn_writes (chat_session_id req) "user" (chat_message req) w)
      as H1.
    destruct (db.add_message _ _ _ w) as [[e|mid] w1]; [exact H1 |]. simpl in H1.
    apply (turn_writes_trans _ w w1); [exact H1 |].
    rewrite generate_unfold. cbv zeta.
    destruct (outcome_of _); [apply turn_writes_refl |].
    match goal with
    | |- context [db.add_message ?a ?b ?c w1] =>
        pose proof (add_message_turn_writes a b c w1) as H2;
        destruct (db.add_message a b c w1) as [[e|mid'] w2]; exact H2
    end. }
  destruct H as (H1 & H2 & H3 & (extra & H4 & H5) & H6).
  fold d d' in H1, H2, H4, H6.
  split_and!; try done.
  - by exists extra.
  - intros sid' Hne. unfold select_session_messages. f_equal.
    rewrite H4, filter_app. rewrite (filter_none _ extra); [by rewrite app_nil_r |].
    intros m Hm Heq. rewrite Forall_forall in H5. specialize (H5 m Hm). congruence.
Qed.

(** ** Authentication comes first *)

(** X15. On every route that takes an API key, a key that belongs to no
    user is answered with 401 "Invalid API key" and nothing is read further
    or written, whether or not the session named by the request exists. *)
Theorem unknown_key_is_rejected_everywhere (P : platform) (r : request) (api_key : string)
    (w : world) :
  api_key_of r = Some api_key ->
  select_user_by_api_key api_key (w_db w) = None ->
  app P r w = (inl (HTTPException 401 "Invalid API key"), w).
Proof.
  intros Hr Hnone.
  destruct r; simpl in Hr; simplify_eq; simpl;
    unfold list_sessions, create_session, delete_session, get_messages, upload_file,
      list_session_files, delete_file, chat_stream;
    unfold mbind at 1, M_bind at 1, bind at 1; by rewrite verify_user_unfold, Hnone.
Qed.

(** ** The further properties at work on the demo deployment *)

Lemma demo_store_ok : store_ok Demo.d0.
Proof.
  constructor; unfold files_key_unique; simpl;
    try (apply (bool_decide_unpack _); vm_compute; exact I);
    try (intros x Hx; by apply elem_of_nil in Hx).
  intros x Hx. repeat (apply elem_of_cons in Hx as [-> | Hx]); simpl;
    try (apply (bool_decide_unpack _); vm_compute; exact I).
  by apply elem_of_nil in Hx.
Qed.




Lemma read_only_routes_change_nothing_witness :
  (app Demo.answers (GET_session_messages "s1" "k1") Demo.after_first_turn).2
  = Demo.after_first_turn.
Proof.
  apply (read_only_routes_change_nothing Demo.answers (GET_session_messages "s1" "k1")
           Demo.after_first_turn).
  reflexivity.
Defined.

Lemma every_route_keeps_the_constraints_witness :
  store_ok (w_db (app Demo.answers (POST_chat_stream Demo.hello) Demo.w0).2).
Proof.
  exact (proj1 (every_route_keeps_the_constraints Demo.answers Demo.w0 demo_store_ok)
           (POST_chat_stream Demo.hello)).
Defined.

Lemma delete_session_cascades_witness :
  let result := delete_session "s1" "k1" Demo.w_readable in
  result.1 = inr (Message "Session deleted")
  ∧ w_fs result.2 !! ["uploads"; "s1"; "notes.txt"] = None
  ∧ w_fs result.2 !! ["uploads"] = Some Directory
  ∧ app Demo.answers (GET_session_files "s1" "k1") result.2
    = (inl (HTTPException 404 "Session not found"), result.2).
Proof.
  intros result.
  destruct (delete_session_cascades Demo.answers "s1" "k1" Demo.w_readable
              Demo.alice Demo.s1)
    as (_ & _ & _ & _ & H404 & _ & Hdir); [reflexivity | reflexivity | reflexivity |].
  destruct (Hdir ["uploads"; "s1"]) as [Hret Hlook]; [reflexivity | reflexivity |].
  split; [exact Hret |]. split; [| split].
  - rewrite Hlook. reflexivity.
  - rewrite Hlook. reflexivity.
  - apply H404. reflexivity.
Defined.

Lemma create_session_then_listed_witness :
  ∃ w1,
    create_session Demo.answers (mk_SessionCreate (Some "")) "k1" Demo.w0
      = (inr (SessionCreated "id0" "Session Jan 01 00:00"), w1)
    ∧ get_messages "id0" "k1" w1 = (inr (MessageList []), w1).
Proof.
  destruct (create_session_then_listed Demo.answers (mk_SessionCreate (Some "")) "k1"
              Demo.w0 Demo.alice)
    as (w1 & H1 & _ & _ & H2 & _); [reflexivity | exact demo_store_ok | decide_closed |].
  exists w1. split; [exact H1 | exact H2].
Defined.

Lemma listings_sorted_and_scoped_witness :
  ∃ ms,
    get_messages "s1" "k1" Demo.after_first_turn = (inr (MessageList ms), Demo.after_first_turn)
    ∧ Sorted by_created_at_asc ms
    ∧ ms ≡ₚ filter (fun m => m_session_id m = "s1") (messages (w_db Demo.after_first_turn)).
Proof.
  destruct (listings_sorted_and_scoped "s1" "k1" Demo.after_first_turn Demo.alice
              (mk_session "s1" "u1" "first" 20 1003))
    as (ms & fs & H1 & H2 & H3 & _);
    [vm_compute; reflexivity | vm_compute; reflexivity | reflexivity |].
  exists ms. split; [exact H1 | split; [exact H2 | exact H3]].
Defined.

Lemma delete_file_removes_witness :
  let result := delete_file "s1" "notes.txt" "k1" Demo.w_readable in
  result.1 = inr (Message "File removed")
  ∧ w_fs result.2 = delete ["uploads"; "s1"; "notes.txt"] Demo.readable_tree
  ∧ (delete_file "s1" ".." "k1" Demo.w_readable).1 = inl (IsADirectoryError "uploads/s1/..").
Proof.
  intros result.
  destruct (delete_file_removes "s1" "notes.txt" "k1" Demo.w_readable Demo.alice Demo.s1)
    as (_ & Hfile & _); [reflexivity | reflexivity | reflexivity |].
  destruct (Hfile ["uploads"; "s1"; "notes.txt"] Demo.hi true) as (H1 & H2 & _);
    [reflexivity | reflexivity | reflexivity |].
  destruct (delete_file_removes "s1" ".." "k1" Demo.w_readable Demo.alice Demo.s1)
    as (_ & _ & Hdir); [reflexivity | reflexivity | reflexivity |].
  split; [exact H1 |]. split; [exact H2 |].
  rewrite (Hdir ["uploads"]); reflexivity.
Defined.



Lemma unknown_key_is_rejected_everywhere_witness :
  app Demo.answers (DELETE_session "no-such-session" "stolen") Demo.w0
  = (inl (HTTPException 401 "Invalid API key"), Demo.w0).
Proof.
  apply (unknown_key_is_rejected_everywhere Demo.answers
           (DELETE_session "no-such-session" "stolen") "stolen" Demo.w0);
    reflexivity.
Defined.

(** ** Upload, then remove *)

Lemma world_eta (w : world) : mk_world (w_db w) (w_fs w) (w_uuid4 w) (w_clock w) = w.
Proof. by destruct w. Qed.

Lemma store_eta (d : store) :
  mk_store (users d) (sessions d) (messages d) (session_files d) = d.
Proof. by destruct d. Qed.

(** X16. Removing, from an owned session, a file that has no record and is
    not on disk is not an error: the handler answers "File removed" and the
    world is exactly as it was. *)
Theorem delete_file_of_unknown_name (session_id filename api_key : string) (w : world)
    (u : user) (s : session) :
  select_user_by_api_key api_key (w_db w) = Some u ->
  select_session session_id (w_db w) = Some s ->
  s_user_id s = u_id u ->
  Path_exists (w_fs w) (truediv (truediv UPLOAD_DIR session_id) filename) = false ->
  (∀ f, f ∈ session_files (w_db w) ->
        ¬ (f_session_id f = session_id ∧ f_filename f = filename)) ->
  delete_file session_id filename api_key w = (inr (Message "File removed"), w).
Proof.
  intros Hu Hs Hown Hex Hnone.
  rewrite (delete_file_authorized session_id filename api_key w u Hu
             (not_owned_false _ _ _ Hs Hown)).
  cbv zeta. rewrite Hex. unfold without_file.
  rewrite filter_all by (by apply Forall_forall).
  by rewrite store_eta, world_eta.
Qed.


Lemma delete_file_of_unknown_name_witness :
  delete_file "s1" "never-uploaded.txt" "k1" Demo.w_readable
  = (inr (Message "File removed"), Demo.w_readable).
Proof.
  apply (delete_file_of_unknown_name "s1" "never-uploaded.txt" "k1" Demo.w_readable
           Demo.alice Demo.s1); [reflexivity | reflexivity | reflexivity | reflexivity |].
  intros f Hf. simpl in Hf. apply list_elem_of_singleton in Hf. subst f.
  simpl. intros [_ Hn]. discriminate Hn.
Defined.

